(** * blob-js: object references, range composition, probes, presigning, listing

    A shallow embedding of the file-like layer of the repository:
    - [R2FileReader] (lib/file.ts): constructor, [slice], [exists], the read
      operations, [write], [presign], [delete], [stat];
    - [createClient] (lib/create-client.ts);
    - [list] (lib/list.ts);
    - [Client] (runtime/node-compat.ts): [file], [presign], [list];
    - [BlobClient] (the older client): [exists], [presigned].

    JavaScript numbers are binary64 doubles.  The offsets of the data model
    are integers, so a number is modelled by the integer it holds, in [Z],
    and the additions of the code by [js_add], which rounds the exact sum
    to the nearest double, ties to even: exact up to 2^53, rounded beyond.
    The exponent is taken unbounded: a sum of magnitude 2^1024 or more is
    [Infinity] in JavaScript and is outside the model.
    Asynchronous calls are sequenced: a promise is the computation that
    yields its value or its rejection. *)

From Stdlib Require Import ZArith String List Bool Lia DecimalString.
Import ListNotations.

Local Open Scope Z_scope.
Local Open Scope string_scope.

(** ** JavaScript object members

    A member of a JavaScript object is absent, present holding [undefined],
    or present holding a value.  The difference between the first two is
    what [Object.keys], the [in] operator and the spread syntax observe. *)

Inductive member (A : Type) : Type :=
| Absent
| Undefined
| Present (a : A).

Arguments Absent {A}.
Arguments Undefined {A}.
Arguments Present {A} a.

(** Reading [o.f]: an absent member reads as [undefined]. *)
Definition get {A} (m : member A) : option A :=
  match m with
  | Present a => Some a
  | _ => None
  end.

(** [Object.keys(o)] lists the member: it is an own member of the object. *)
Definition own {A} (m : member A) : bool :=
  match m with
  | Absent => false
  | _ => true
  end.

(** The assignment [o.f = v] (or the literal [{ f: v }]) where [v] may be
    [undefined]: the member is present whatever the value. *)
Definition assign {A} (v : option A) : member A :=
  match v with
  | Some a => Present a
  | None => Undefined
  end.

(** One member of [{ ...a, ...b }]: the later spread wins when it owns it. *)
Definition spread_member {A} (a b : member A) : member A :=
  match b with
  | Absent => a
  | _ => b
  end.

(** [x ?? d] *)
Definition nullish {A} (x : option A) (d : A) : A :=
  match x with
  | Some a => a
  | None => d
  end.

(** [x ?? y] where [y] may be [undefined] too. *)
Definition nullish_opt {A} (x y : option A) : option A :=
  match x with
  | Some a => Some a
  | None => y
  end.

(** Truthiness of a string and of a number. *)
Definition truthy_string (s : string) : bool :=
  negb (String.eqb s "").

Definition truthy_number (n : Z) : bool :=
  negb (Z.eqb n 0).

(** [x || y] on possibly undefined strings, [y] possibly undefined. *)
Definition or_string (x y : option string) : option string :=
  match x with
  | Some s => if truthy_string s then Some s else y
  | None => y
  end.

(** [x || d] on a possibly undefined string. *)
Definition or_default (x : option string) (d : string) : string :=
  match x with
  | Some s => if truthy_string s then s else d
  | None => d
  end.

(** [x || d] on a possibly undefined number. *)
Definition or_number (x : option Z) (d : Z) : Z :=
  match x with
  | Some n => if truthy_number n then n else d
  | None => d
  end.

(** ** Options *)

(** Modelled from the spec: the declaration of [R2Options] (lib/types.ts) is
    not part of the source tree; the members are those the code reads
    (bucket, endpoint, virtualHostedStyle, the credentials, region, and the
    content-type override, access-control-list tag and storage-class tag of
    the data model). *)
Record R2Options : Type := mkR2Options {
  opt_bucket : member string;
  opt_endpoint : member string;
  opt_virtualHostedStyle : member bool;
  opt_accessKeyId : member string;
  opt_secretAccessKey : member string;
  opt_sessionToken : member string;
  opt_region : member string;
  opt_type : member string;
  opt_acl : member string;
  opt_storageClass : member string
}.

(** The object literal [{}]. *)
Definition empty_options : R2Options :=
  mkR2Options Absent Absent Absent Absent Absent Absent Absent Absent Absent Absent.

(** [{ ...a, ...b }] *)
Definition spread (a b : R2Options) : R2Options :=
  {| opt_bucket := spread_member (opt_bucket a) (opt_bucket b);
     opt_endpoint := spread_member (opt_endpoint a) (opt_endpoint b);
     opt_virtualHostedStyle :=
       spread_member (opt_virtualHostedStyle a) (opt_virtualHostedStyle b);
     opt_accessKeyId := spread_member (opt_accessKeyId a) (opt_accessKeyId b);
     opt_secretAccessKey :=
       spread_member (opt_secretAccessKey a) (opt_secretAccessKey b);
     opt_sessionToken := spread_member (opt_sessionToken a) (opt_sessionToken b);
     opt_region := spread_member (opt_region a) (opt_region b);
     opt_type := spread_member (opt_type a) (opt_type b);
     opt_acl := spread_member (opt_acl a) (opt_acl b);
     opt_storageClass := spread_member (opt_storageClass a) (opt_storageClass b) |}.

(** Spreading [undefined] contributes nothing. *)
Definition spread_opt (a : option R2Options) : R2Options :=
  match a with
  | Some o => o
  | None => empty_options
  end.

(** [{ ...o, type }]: the shorthand member [type] is always written, also
    when the variable holds [undefined]. *)
Definition with_type (o : R2Options) (type : option string) : R2Options :=
  {| opt_bucket := opt_bucket o;
     opt_endpoint := opt_endpoint o;
     opt_virtualHostedStyle := opt_virtualHostedStyle o;
     opt_accessKeyId := opt_accessKeyId o;
     opt_secretAccessKey := opt_secretAccessKey o;
     opt_sessionToken := opt_sessionToken o;
     opt_region := opt_region o;
     opt_type := assign type;
     opt_acl := opt_acl o;
     opt_storageClass := opt_storageClass o |}.

(** [options?.f] *)
Definition opt_read {A} (f : R2Options -> member A) (o : option R2Options)
  : option A :=
  match o with
  | Some r => get (f r)
  | None => None
  end.

(** ** The transport client (lib/create-client.ts) *)

Record S3ClientConfig : Type := mkConfig {
  cfg_endpoint : option string;
  cfg_region : string;
  cfg_forcePathStyle : bool;
  cfg_accessKeyId : string;
  cfg_secretAccessKey : string;
  cfg_sessionToken : option string
}.

Definition createClient (env_R2_ENDPOINT : option string)
  (options : option R2Options) : S3ClientConfig :=
  {| cfg_endpoint := nullish_opt (opt_read opt_endpoint options) env_R2_ENDPOINT;
     cfg_region := "auto";
     cfg_forcePathStyle := nullish (opt_read opt_virtualHostedStyle options) true;
     cfg_accessKeyId := nullish (opt_read opt_accessKeyId options) "";
     cfg_secretAccessKey := nullish (opt_read opt_secretAccessKey options) "";
     cfg_sessionToken := opt_read opt_sessionToken options |}.

(** ** Numbers

    The nearest double to a non-negative integer [m].  Below 2^53 every
    integer is a double.  From there on the doubles of the binade
    [2^k, 2^(k+1)) are the multiples of [s = 2^(k-52)]: [m] is rounded to
    the nearer of its two neighbours, and half way to the one whose
    quotient by [s], the significand, is even. *)
Definition round_choice (q r s : Z) : Z :=
  if (2 * r <? s)%Z then q
  else if (s <? 2 * r)%Z then q + 1
  else if Z.even q then q
  else q + 1.

Definition round_magnitude (m : Z) : Z :=
  if (m <? 2 ^ 53)%Z then m
  else
    let s := 2 ^ (Z.log2 m - 52) in
    round_choice (m / s) (m mod s) s * s.

(** The nearest double to an integer; rounding is symmetric in the sign. *)
Definition round_even (n : Z) : Z := Z.sgn n * round_magnitude (Z.abs n).

(** [x + y] and [x - y] on numbers that hold integers. *)
Definition js_add (x y : Z) : Z := round_even (x + y).

Definition js_sub (x y : Z) : Z := round_even (x - y).

Arguments round_even : simpl never.
Arguments js_add : simpl never.
Arguments js_sub : simpl never.

(** The integers of magnitude at most 2^53: every one of them is a double,
    and a sum or difference that lands among them is computed exactly. *)
Definition safe (n : Z) : Prop := - 2 ^ 53 <= n <= 2 ^ 53.

(** ** Object references (lib/file.ts) *)

(** [{ begin?: number; end?: number }] *)
Record Range : Type := mkRange {
  range_begin : member Z;
  range_end : member Z
}.

Definition empty_range : Range := mkRange Absent Absent.

(** [Object.keys(r).length] *)
Definition range_keys (r : Range) : nat :=
  ((if own (range_begin r) then 1 else 0)
   + (if own (range_end r) then 1 else 0))%nat.

(** [range?.begin] and [range?.end] *)
Definition range_read (f : Range -> member Z) (r : option Range) : option Z :=
  match r with
  | Some x => get (f x)
  | None => None
  end.

Record R2FileReader : Type := mkReader {
  name : string;
  options_ : R2Options;
  bucket_ : string;
  client_ : S3ClientConfig;
  range_ : option Range
}.

(** An argument of [slice] as [typeof] sees it. *)
Inductive SliceArg : Type :=
| ArgUndefined
| ArgNumber (n : Z)
| ArgString (s : string).

(** [new R2FileReader(path, options, range)]; [env] is
    [process.env.R2_ENDPOINT], which [createClient] reads. *)
Definition new_R2FileReader (env : option string) (path : string)
  (options : option R2Options) (range : option Range) : R2FileReader :=
  {| name := path;
     options_ := nullish options empty_options;
     bucket_ := nullish (opt_read opt_bucket options) "";
     client_ := createClient env options;
     range_ := range |}.

(** The locals [begin], [end] and [type] of [slice] after the parsing of its
    arguments by their types. *)
Definition slice_parse (beginOrContentType endOrContentType : SliceArg)
  (contentType : option string) : option Z * option Z * option string :=
  match beginOrContentType with
  | ArgString s => (None, None, Some s)
  | ArgNumber b =>
      match endOrContentType with
      | ArgString s => (Some b, None, Some s)
      | ArgNumber e => (Some b, Some e, contentType)
      | ArgUndefined => (Some b, None, None)
      end
  | ArgUndefined => (None, None, None)
  end.

(** The local [newRange] of [slice] after the merge with the existing
    range; it stays [{}] when neither [begin] nor [end] is defined. *)
Definition slice_range (existing : option Range) (begin end_ : option Z)
  : Range :=
  match begin, end_ with
  | None, None => empty_range
  | _, _ =>
      let existingBegin := nullish (range_read range_begin existing) 0 in
      let existingEnd := range_read range_end existing in
      {| range_begin :=
           match begin with
           | Some b => Present (js_add existingBegin b)
           | None => Present existingBegin
           end;
         range_end :=
           match end_ with
           | Some e =>
               match existingEnd with
               | Some e0 => Present (Z.min (js_add existingBegin e) e0)
               | None => Present (js_add existingBegin e)
               end
           | None => assign existingEnd
           end |}
  end.

Definition slice (env : option string) (self : R2FileReader)
  (beginOrContentType endOrContentType : SliceArg)
  (contentType : option string) : R2FileReader :=
  let '(begin, end_, type) :=
    slice_parse beginOrContentType endOrContentType contentType in
  let newRange := slice_range (range_ self) begin end_ in
  new_R2FileReader env (name self)
    (Some (with_type (options_ self) type))
    (if (0 <? range_keys newRange)%nat then Some newRange else range_ self).

(** ** Thrown values and results *)

(** What a [catch] clause can observe of a thrown value: whether it is an
    instance of [Error], its [name] member when it has one, its message. *)
Record JsThrown : Type := mkThrown {
  thrown_is_Error : bool;
  thrown_name : option string;
  thrown_message : string
}.

(** [new Error(message)] *)
Definition new_Error (message : string) : JsThrown :=
  mkThrown true (Some "Error") message.

Inductive Result (A : Type) : Type :=
| Ok (a : A)
| Throw (e : JsThrown).

Arguments Ok {A} a.
Arguments Throw {A} e.

(** ** Commands of the transport and their outputs *)

Definition Bytes : Type := list Byte.byte.

(** A timestamp, a JavaScript [Date] object (always truthy). *)
Inductive Date : Type :=
| MkDate (ms : Z).

Definition truthy_date (d : Date) : bool := true.

(** The input of a GET: the reader fills bucket and key; [Range] is the
    byte-range member of the command. *)
Record GetObjectInput : Type := mkGet {
  get_Bucket : string;
  get_Key : string;
  get_Range : option string
}.

Record HeadObjectInput : Type := mkHead {
  head_Bucket : string;
  head_Key : string
}.

Record DeleteObjectInput : Type := mkDelete {
  del_Bucket : string;
  del_Key : string
}.

Record PutObjectInput : Type := mkPut {
  put_Bucket : string;
  put_Key : string;
  put_Body : option Bytes;
  put_ContentType : option string;
  put_ACL : option string;
  put_StorageClass : option string
}.

Record ListObjectsV2Input : Type := mkList {
  list_Bucket : option string;
  list_Prefix : option string;
  list_ContinuationToken : option string;
  list_Delimiter : option string;
  list_MaxKeys : option Z;
  list_FetchOwner : option bool;
  list_EncodingType : option string;
  list_StartAfter : option string
}.

Inductive Command : Type :=
| GetObjectCommand (input : GetObjectInput)
| HeadObjectCommand (input : HeadObjectInput)
| PutObjectCommand (input : PutObjectInput)
| DeleteObjectCommand (input : DeleteObjectInput)
| ListObjectsV2Command (input : ListObjectsV2Input).

(** The body of a GET response: the chunks the reader yields, and the
    transport failure that ends them early, if any. *)
Record StreamingBody : Type := mkBody {
  body_chunks : list Bytes;
  body_failure : option JsThrown
}.

Record GetObjectOutput : Type := mkGetOut {
  out_Body : option StreamingBody
}.

Record HeadObjectOutput : Type := mkHeadOut {
  out_ContentType : option string;
  out_ETag : option string;
  out_ContentLength : option Z;
  out_LastModified : option Date
}.

Record RawCommonPrefix : Type := mkRawPrefix {
  raw_Prefix : option string
}.

Record RawOwner : Type := mkRawOwner {
  raw_ID : option string;
  raw_DisplayName : option string
}.

Record RawRestoreStatus : Type := mkRawRestore {
  raw_IsRestoreInProgress : option bool;
  raw_RestoreExpiryDate : option Date
}.

Record RawObject : Type := mkRawObject {
  raw_ETag : option string;
  raw_Key : option string;
  raw_ChecksumAlgorithm : option (list string);
  raw_ChecksumType : option string;
  raw_LastModified : option Date;
  raw_Owner : option RawOwner;
  raw_RestoreStatus : option RawRestoreStatus;
  raw_Size : option Z;
  raw_StorageClass : option string
}.

Record ListObjectsV2Output : Type := mkListOut {
  out_Name : option string;
  out_CommonPrefixes : option (list RawCommonPrefix);
  out_Delimiter : option string;
  out_ContinuationToken : option string;
  out_IsTruncated : option bool;
  out_EncodingType : option string;
  out_StartAfter : option string;
  out_MaxKeys : option Z;
  out_KeyCount : option Z;
  out_Prefix : option string;
  out_NextContinuationToken : option string;
  out_Contents : option (list RawObject)
}.

(** ** The world outside the code

    The storage service answers each command with an output or an error;
    the signer of the SDK, the clock and the text codecs are opaque. *)
Record World : Type := mkWorld {
  env_R2_ENDPOINT : option string;
  now : Date;
  toISOString : Date -> string;
  utf8_encode : string -> Bytes;
  utf8_decode : Bytes -> string;
  Json : Type;
  JSON_parse : string -> Result Json;
  s3_get : S3ClientConfig -> GetObjectInput -> Result GetObjectOutput;
  s3_head : S3ClientConfig -> HeadObjectInput -> Result HeadObjectOutput;
  s3_put : S3ClientConfig -> PutObjectInput -> Result unit;
  s3_delete : S3ClientConfig -> DeleteObjectInput -> Result unit;
  s3_list : S3ClientConfig -> ListObjectsV2Input -> Result ListObjectsV2Output;
  getSignedUrl : S3ClientConfig -> Command -> Z -> Result string
}.

(** ** Effects: the calls a computation makes, then its result *)

Inductive Call : Type :=
| Sent (client : S3ClientConfig) (command : Command)
| Signed (client : S3ClientConfig) (command : Command) (expiresIn : Z)
| Logged (e : JsThrown).

Definition M (A : Type) : Type := (list Call * Result A)%type.

Definition ret {A} (a : A) : M A := ([], Ok a).

Definition throw {A} (e : JsThrown) : M A := ([], Throw e).

Definition bind {A B} (m : M A) (k : A -> M B) : M B :=
  match m with
  | (t, Ok a) => let '(t', r) := k a in ((t ++ t')%list, r)
  | (t, Throw e) => (t, Throw e)
  end.

(** [try { m } catch (error) { handler }] *)
Definition try_catch {A} (m : M A) (handler : JsThrown -> M A) : M A :=
  match m with
  | (t, Throw e) => let '(t', r) := handler e in ((t ++ t')%list, r)
  | (t, Ok a) => (t, Ok a)
  end.

Definition lift {A} (r : Result A) : M A := ([], r).

Definition calls {A} (m : M A) : list Call := fst m.

Definition outcome {A} (m : M A) : Result A := snd m.

Notation "x <- m ;; k" := (bind m (fun x => k))
  (at level 61, m at next level, right associativity).

(** [client.send(new XCommand(input))] *)
Definition send_get (w : World) (c : S3ClientConfig) (i : GetObjectInput)
  : M GetObjectOutput :=
  ([Sent c (GetObjectCommand i)], s3_get w c i).

Definition send_head (w : World) (c : S3ClientConfig) (i : HeadObjectInput)
  : M HeadObjectOutput :=
  ([Sent c (HeadObjectCommand i)], s3_head w c i).

Definition send_put (w : World) (c : S3ClientConfig) (i : PutObjectInput)
  : M unit :=
  ([Sent c (PutObjectCommand i)], s3_put w c i).

Definition send_delete (w : World) (c : S3ClientConfig) (i : DeleteObjectInput)
  : M unit :=
  ([Sent c (DeleteObjectCommand i)], s3_delete w c i).

Definition send_list (w : World) (c : S3ClientConfig) (i : ListObjectsV2Input)
  : M ListObjectsV2Output :=
  ([Sent c (ListObjectsV2Command i)], s3_list w c i).

(** [getSignedUrl(client, command, { expiresIn })] *)
Definition sign (w : World) (c : S3ClientConfig) (cmd : Command) (expiresIn : Z)
  : M string :=
  ([Signed c cmd expiresIn], getSignedUrl w c cmd expiresIn).

(** [console.log(e)] *)
Definition console_log (e : JsThrown) : M unit := ([Logged e], Ok tt).

(** ** R2FileReader: existence probe *)

(** The test of the [catch] clause of [exists]:
    [error instanceof Error && "name" in error &&
     (error.name === "NotFound" || error.name === "NoSuchKey")]. *)
Definition is_not_found (error : JsThrown) : bool :=
  thrown_is_Error error
  && match thrown_name error with
     | Some n => String.eqb n "NotFound" || String.eqb n "NoSuchKey"
     | None => false
     end.

(** [R2FileReader.exists] *)
Definition exists_ (w : World) (self : R2FileReader) : M bool :=
  try_catch
    (_ <- send_head w (client_ self) (mkHead (bucket_ self) (name self)) ;;
     ret true)
    (fun error => if is_not_found error then ret false else throw error).

(** ** R2FileReader: reading *)

Inductive StreamEnd : Type :=
| Closed
| Errored (e : JsThrown).

(** What the source of a [ReadableStream] does to its controller: the
    chunks it enqueues, in order, then the close or the error. *)
Record ReadableStream : Type := mkStream {
  stream_chunks : list Bytes;
  stream_end : StreamEnd
}.

(** [R2FileReader.stream]: the [start] callback sends the GET, closes at
    once when there is no body, enqueues each chunk read and closes, and
    turns any failure into an error of the stream.  The result lists what
    [start] does to the controller; what a consumer receives of it is
    given by [delivered]. *)
Definition stream (w : World) (self : R2FileReader) : list Call * ReadableStream :=
  let '(t, r) :=
    send_get w (client_ self) (mkGet (bucket_ self) (name self) None) in
  (t,
   match r with
   | Throw error => mkStream [] (Errored error)
   | Ok response =>
       match out_Body response with
       | None => mkStream [] Closed
       | Some body =>
           mkStream (body_chunks body)
             match body_failure body with
             | Some error => Errored error
             | None => Closed
             end
       end
   end).

(** [Body.transformToByteArray()] drains the body. *)
Definition transformToByteArray (body : StreamingBody) : Result Bytes :=
  match body_failure body with
  | Some error => Throw error
  | None => Ok (List.concat (body_chunks body))
  end.

(** [Body.transformToString()] drains the body and decodes it. *)
Definition transformToString (w : World) (body : StreamingBody) : Result string :=
  match transformToByteArray body with
  | Ok b => Ok (utf8_decode w b)
  | Throw error => Throw error
  end.

(** [R2FileReader.arrayBuffer]: both branches on the kind of the buffer
    return a copy holding the bytes of [uint8Array]. *)
Definition arrayBuffer (w : World) (self : R2FileReader) : M Bytes :=
  response <- send_get w (client_ self) (mkGet (bucket_ self) (name self) None) ;;
  match out_Body response with
  | None => ret []
  | Some body =>
      uint8Array <- lift (transformToByteArray body) ;;
      ret uint8Array
  end.

(** [R2FileReader.text] *)
Definition text (w : World) (self : R2FileReader) : M string :=
  response <- send_get w (client_ self) (mkGet (bucket_ self) (name self) None) ;;
  match out_Body response with
  | None => ret ""
  | Some body => lift (transformToString w body)
  end.

(** [R2FileReader.json] *)
Definition json (w : World) (self : R2FileReader) : M (Json w) :=
  text_ <- text w self ;;
  lift (JSON_parse w text_).

(** [R2FileReader.bytes] *)
Definition bytes (w : World) (self : R2FileReader) : M Bytes :=
  response <- send_get w (client_ self) (mkGet (bucket_ self) (name self) None) ;;
  match out_Body response with
  | None => ret []
  | Some body =>
      uint8Array <- lift (transformToByteArray body) ;;
      ret uint8Array
  end.

(** ** R2FileReader: writing *)

(** The payload of [write] as its [instanceof] tests see it.  A request, a
    response and a blob carry the outcome of their [arrayBuffer()] call;
    a request and a response carry [headers.get("content-type")] ([None]
    for [null]), a blob its [type]. *)
Inductive WriteData : Type :=
| DataString (s : string)
| DataArrayBuffer (b : Bytes)
| DataView (b : Bytes)
| DataRequest (body : Result Bytes) (content_type : option string)
| DataResponse (body : Result Bytes) (content_type : option string)
| DataBlob (body : Result Bytes) (type : string)
| DataOther.

(** The locals [body] and [contentType] of [write] before the PUT. *)
Definition write_body (w : World) (data : WriteData) (contentType : option string)
  : M (Bytes * option string) :=
  match data with
  | DataString s => ret (utf8_encode w s, contentType)
  | DataArrayBuffer b => ret (b, contentType)
  | DataView b => ret (b, contentType)
  | DataRequest body header
  | DataResponse body header =>
      arrayBuffer_ <- lift body ;;
      ret (arrayBuffer_, or_string (or_string contentType header) None)
  | DataBlob body type =>
      arrayBuffer_ <- lift body ;;
      ret (arrayBuffer_, or_string (or_string contentType (Some type)) None)
  | DataOther => throw (new_Error "Unsupported data type")
  end.

(** [R2FileReader.write] *)
Definition write (w : World) (self : R2FileReader) (data : WriteData)
  (options : option R2Options) : M Z :=
  let contentType :=
    nullish_opt (opt_read opt_type options) (get (opt_type (options_ self))) in
  prepared <- write_body w data contentType ;;
  _ <- send_put w (client_ self)
         {| put_Bucket := bucket_ self;
            put_Key := name self;
            put_Body := Some (fst prepared);
            put_ContentType := snd prepared;
            put_ACL := opt_read opt_acl options;
            put_StorageClass := opt_read opt_storageClass options |} ;;
  ret (Z.of_nat (List.length (fst prepared))).

(** ** R2FileReader: presigning, deleting, metadata *)

(** Modelled from the spec: the declaration of [R2FilePresignOptions]
    (lib/types.ts) is not part of the source tree; it carries the members
    of [R2Options] (the static [Client.presign] hands the same object to
    [Client.file]) and the members [method] and [expiresIn] that [presign]
    reads. *)
Record R2FilePresignOptions : Type := mkPresignOptions {
  pre_options : R2Options;
  pre_method : option string;
  pre_expiresIn : option Z
}.

(** [options?.method || "GET"] *)
Definition presign_method (options : option R2FilePresignOptions) : string :=
  or_default (match options with
              | Some o => pre_method o
              | None => None
              end) "GET".

(** The [switch] of [presign]. *)
Definition presign_command (self : R2FileReader)
  (options : option R2FilePresignOptions) (method : string) : M Command :=
  if String.eqb method "GET" then
    ret (GetObjectCommand (mkGet (bucket_ self) (name self) None))
  else if String.eqb method "PUT" then
    ret (PutObjectCommand
           {| put_Bucket := bucket_ self;
              put_Key := name self;
              put_Body := None;
              put_ContentType :=
                nullish_opt (opt_read opt_type (option_map pre_options options))
                  (get (opt_type (options_ self)));
              put_ACL := opt_read opt_acl (option_map pre_options options);
              put_StorageClass := None |})
  else if String.eqb method "DELETE" then
    ret (DeleteObjectCommand (mkDelete (bucket_ self) (name self)))
  else if String.eqb method "HEAD" then
    ret (HeadObjectCommand (mkHead (bucket_ self) (name self)))
  else
    throw (new_Error ("Unsupported method: " ++ method)).

(** [R2FileReader.presign] *)
Definition presign (w : World) (self : R2FileReader)
  (options : option R2FilePresignOptions) : M string :=
  let method := presign_method options in
  commandToSign <- presign_command self options method ;;
  sign w (client_ self) commandToSign
    (or_number (match options with
                | Some o => pre_expiresIn o
                | None => None
                end) 900).

(** [R2FileReader.delete] *)
Definition delete (w : World) (self : R2FileReader) : M unit :=
  _ <- send_delete w (client_ self) (mkDelete (bucket_ self) (name self)) ;;
  ret tt.

Record R2Stats : Type := mkStats {
  stat_type : string;
  stat_etag : string;
  stat_size : Z;
  stat_lastModified : Date
}.

(** [new S3Stat(type, etag, size, lastModified)] *)
Definition new_S3Stat (w : World) (type etag : option string) (size : option Z)
  (lastModified : option Date) : R2Stats :=
  {| stat_type := nullish type "";
     stat_etag := nullish etag "";
     stat_size := nullish size 0;
     stat_lastModified := nullish lastModified (now w) |}.

(** [R2FileReader.stat] *)
Definition stat (w : World) (self : R2FileReader) : M R2Stats :=
  try_catch
    (response <- send_head w (client_ self) (mkHead (bucket_ self) (name self)) ;;
     ret (new_S3Stat w (out_ContentType response) (out_ETag response)
            (out_ContentLength response) (out_LastModified response)))
    (fun e => _ <- console_log e ;; throw e).

(** ** Listing (lib/list.ts and Client.list) *)

(** Modelled from the spec: the declarations of [R2ListObjectsOptions],
    [R2ListObjectsResponse] and [R2ListObjectContent] (lib/types.ts) are not
    part of the source tree; the members are those the code reads and
    writes, which are the ones the data model of the spec lists. *)
Record R2ListObjectsOptions : Type := mkListOptions {
  in_prefix : option string;
  in_continuationToken : option string;
  in_delimiter : option string;
  in_maxKeys : option Z;
  in_startAfter : option string;
  in_encodingType : option string;
  in_fetchOwner : option bool
}.

Record CommonPrefix : Type := mkPrefix {
  cp_prefix : member string
}.

Record Owner : Type := mkOwner {
  owner_id : member string;
  owner_displayName : member string
}.

Record RestoreStatus : Type := mkRestore {
  rs_isRestoreInProgress : member bool;
  rs_restoreExpiryDate : member string
}.

Record R2ListObjectContent : Type := mkContent {
  c_eTag : member string;
  c_key : member string;
  c_checksumAlgorithm : member string;
  c_checksumType : member string;
  c_lastModified : member string;
  c_owner : member Owner;
  c_restoreStatus : member RestoreStatus;
  c_size : member Z;
  c_storageClass : member string
}.

Record R2ListObjectsResponse : Type := mkResponse {
  r_name : member string;
  r_commonPrefixes : member (list CommonPrefix);
  r_delimiter : member string;
  r_continuationToken : member string;
  r_isTruncated : member bool;
  r_encodingType : member string;
  r_startAfter : member string;
  r_maxKeys : member Z;
  r_keyCount : member Z;
  r_prefix : member string;
  r_nextContinuationToken : member string;
  r_contents : member (list R2ListObjectContent)
}.

(** [if (x) o.f = x] on a possibly undefined string: the member is written
    only for a truthy value. *)
Definition if_truthy (x : option string) : member string :=
  match x with
  | Some s => if truthy_string s then Present s else Absent
  | None => Absent
  end.

(** [if (x !== undefined) o.f = x] *)
Definition if_defined {A} (x : option A) : member A :=
  match x with
  | Some a => Present a
  | None => Absent
  end.

(** [c.ChecksumAlgorithm?.[0]] *)
Definition first_checksum (x : option (list string)) : option string :=
  match x with
  | Some (a :: _) => Some a
  | _ => None
  end.

(** The callback mapped over [response.Contents].  The fields of the raw
    entry are absent or hold a value, as the output types of the SDK have
    them (none is [null]). *)
Definition list_content (w : World) (c : RawObject) : R2ListObjectContent :=
  {| c_eTag := Present (nullish (raw_ETag c) "");
     c_key := Present (nullish (raw_Key c) "");
     c_checksumAlgorithm := if_truthy (first_checksum (raw_ChecksumAlgorithm c));
     c_checksumType := if_truthy (raw_ChecksumType c);
     c_lastModified :=
       match raw_LastModified c with
       | Some d => Present (toISOString w (if truthy_date d then d else now w))
       | None => Absent
       end;
     c_owner :=
       match raw_Owner c with
       | Some o =>
           Present {| owner_id := assign (raw_ID o);
                      owner_displayName := assign (raw_DisplayName o) |}
       | None => Absent
       end;
     c_restoreStatus :=
       match raw_RestoreStatus c with
       | Some s =>
           Present
             {| rs_isRestoreInProgress := assign (raw_IsRestoreInProgress s);
                rs_restoreExpiryDate :=
                  match raw_RestoreExpiryDate s with
                  | Some d =>
                      if truthy_date d then Present (toISOString w d)
                      else Undefined
                  | None => Undefined
                  end |}
       | None => Absent
       end;
     c_size := if_defined (raw_Size c);
     c_storageClass :=
       match raw_StorageClass c with
       | Some s => assign (nullish_opt (Some s) None)
       | None => Absent
       end |}.

(** The mapping of the raw response into [listObject]; the standalone
    [list] (lib/list.ts, lines 33-126) and the static [Client.list]
    (lines 609-703) carry the same statements, member for member. *)
Definition list_response (w : World) (response : ListObjectsV2Output)
  : R2ListObjectsResponse :=
  {| r_name := if_truthy (out_Name response);
     r_commonPrefixes :=
       match out_CommonPrefixes response with
       | Some ps =>
           Present (map (fun p => mkPrefix (Present (nullish (raw_Prefix p) ""))) ps)
       | None => Absent
       end;
     r_delimiter := if_truthy (out_Delimiter response);
     r_continuationToken := if_truthy (out_ContinuationToken response);
     r_isTruncated := if_defined (out_IsTruncated response);
     r_encodingType := if_truthy (out_EncodingType response);
     r_startAfter := if_truthy (out_StartAfter response);
     r_maxKeys := if_defined (out_MaxKeys response);
     r_keyCount := if_defined (out_KeyCount response);
     r_prefix := if_truthy (out_Prefix response);
     r_nextContinuationToken := if_truthy (out_NextContinuationToken response);
     r_contents :=
       match out_Contents response with
       | Some cs => Present (map (list_content w) cs)
       | None => Absent
       end |}.

(** [input?.f] *)
Definition in_read {A} (f : R2ListObjectsOptions -> option A)
  (input : option R2ListObjectsOptions) : option A :=
  match input with
  | Some i => f i
  | None => None
  end.

(** The standalone [list] of lib/list.ts. *)
Definition lib_list (w : World) (input : option R2ListObjectsOptions)
  (options : option R2Options) : M R2ListObjectsResponse :=
  let bucket := opt_read opt_bucket options in
  let client := createClient (env_R2_ENDPOINT w) options in
  response <- send_list w client
                {| list_Bucket := bucket;
                   list_Prefix := in_read in_prefix input;
                   list_ContinuationToken := in_read in_continuationToken input;
                   list_Delimiter := in_read in_delimiter input;
                   list_MaxKeys := in_read in_maxKeys input;
                   list_FetchOwner := in_read in_fetchOwner input;
                   list_EncodingType := in_read in_encodingType input;
                   list_StartAfter := in_read in_startAfter input |} ;;
  ret (list_response w response).

(** ** Client (runtime/node-compat.ts) *)

Record Client : Type := mkClient {
  client_options : option R2Options
}.

(** [Client.file] of an instance *)
Definition Client_file (w : World) (self : Client) (path : string)
  (options : option R2Options) : R2FileReader :=
  new_R2FileReader (env_R2_ENDPOINT w) path
    (Some (spread (spread_opt (client_options self)) (spread_opt options)))
    None.

(** The static [Client.file] *)
Definition Client_static_file (w : World) (path : string)
  (options : option R2Options) : R2FileReader :=
  new_R2FileReader (env_R2_ENDPOINT w) path options None.

(** [Client.write] of an instance and the static one *)
Definition Client_write (w : World) (self : Client) (path : string)
  (data : WriteData) (options : option R2Options) : M Z :=
  let file :=
    Client_file w self path
      (Some (spread (spread_opt (client_options self)) (spread_opt options))) in
  write w file data None.

Definition Client_static_write (w : World) (path : string) (data : WriteData)
  (options : option R2Options) : M Z :=
  let file := Client_static_file w path options in
  write w file data None.

(** [Client.presign] of an instance and the static one *)
Definition Client_presign (w : World) (self : Client) (path : string)
  (options : option R2FilePresignOptions) : M string :=
  let file := Client_file w self path None in
  presign w file options.

Definition Client_static_presign (w : World) (path : string)
  (options : option R2FilePresignOptions) : M string :=
  let file := Client_static_file w path (option_map pre_options options) in
  presign w file options.

(** [Client.unlink] and [Client.delete] *)
Definition Client_delete (w : World) (self : Client) (path : string)
  (options : option R2Options) : M unit :=
  let file := Client_file w self path options in
  delete w file.

Definition Client_static_delete (w : World) (path : string)
  (options : option R2Options) : M unit :=
  let file := Client_static_file w path options in
  delete w file.

(** [Client.size] *)
Definition Client_size (w : World) (self : Client) (path : string)
  (options : option R2Options) : M Z :=
  let file := Client_file w self path options in
  stat_ <- stat w file ;;
  ret (stat_size stat_).

Definition Client_static_size (w : World) (path : string)
  (options : option R2Options) : M Z :=
  let file := Client_static_file w path options in
  stat_ <- stat w file ;;
  ret (stat_size stat_).

(** [Client.exists] *)
Definition Client_exists (w : World) (self : Client) (path : string)
  (options : option R2Options) : M bool :=
  let file := Client_file w self path options in
  exists_ w file.

Definition Client_static_exists (w : World) (path : string)
  (options : option R2Options) : M bool :=
  let file := Client_static_file w path options in
  exists_ w file.

(** [Client.stat] *)
Definition Client_stat (w : World) (self : Client) (path : string)
  (options : option R2Options) : M R2Stats :=
  let file :=
    Client_file w self path
      (Some (spread (spread_opt (client_options self)) (spread_opt options))) in
  stat w file.

Definition Client_static_stat (w : World) (path : string)
  (options : option R2Options) : M R2Stats :=
  let file := Client_static_file w path options in
  stat w file.

(** The static [Client.list]: the command carries the bucket alone. *)
Definition Client_static_list (w : World) (input : option R2ListObjectsOptions)
  (options : option R2Options) : M R2ListObjectsResponse :=
  let bucket := opt_read opt_bucket options in
  let client := createClient (env_R2_ENDPOINT w) options in
  response <- send_list w client
                {| list_Bucket := bucket;
                   list_Prefix := None;
                   list_ContinuationToken := None;
                   list_Delimiter := None;
                   list_MaxKeys := None;
                   list_FetchOwner := None;
                   list_EncodingType := None;
                   list_StartAfter := None |} ;;
  ret (list_response w response).

(** [Client.list] of an instance *)
Definition Client_list (w : World) (self : Client)
  (input : option R2ListObjectsOptions) (options : option R2Options)
  : M R2ListObjectsResponse :=
  Client_static_list w input
    (Some (spread (spread_opt (client_options self)) (spread_opt options))).

(** ** BlobClient (the client over [BlobOptions]) *)

(** [BlobOptions] and [PresignOptions] of types.ts; the tuning members the
    code never reads (partSize, queueSize, retry, highWaterMark) are left
    out. *)
Record BlobOptions : Type := mkBlobOptions {
  bo_bucket : string;
  bo_region : option string;
  bo_accessKeyId : string;
  bo_secretAccessKey : string;
  bo_endpoint : option string;
  bo_type : option string
}.

Record PresignOptions : Type := mkPresign {
  ps_expiresIn : option Z;
  ps_method : option string;
  ps_type : option string
}.

Record BlobClient : Type := mkBlobClient {
  blob_client : S3ClientConfig;
  blob_options : BlobOptions
}.

(** [new BlobClient(options)] *)
Definition new_BlobClient (options : BlobOptions) : BlobClient :=
  {| blob_client :=
       {| cfg_endpoint := bo_endpoint options;
          cfg_region := "auto";
          cfg_forcePathStyle := true;
          cfg_accessKeyId := bo_accessKeyId options;
          cfg_secretAccessKey := bo_secretAccessKey options;
          cfg_sessionToken := None |};
     blob_options := options |}.

(** [BlobClient.exists] *)
Definition BlobClient_exists (w : World) (self : BlobClient) (path : string)
  : M bool :=
  try_catch
    (_ <- send_head w (blob_client self)
            (mkHead (bo_bucket (blob_options self)) path) ;;
     ret true)
    (fun error => if is_not_found error then ret false else throw error).

(** The [switch] of [BlobClient.presigned]; its [default] arm builds the
    GET command. *)
Definition presigned_command (self : BlobClient) (path method : string)
  : Command :=
  let bucket := bo_bucket (blob_options self) in
  if String.eqb method "GET" then
    GetObjectCommand (mkGet bucket path None)
  else if String.eqb method "PUT" then
    PutObjectCommand (mkPut bucket path None None None None)
  else if String.eqb method "DELETE" then
    DeleteObjectCommand (mkDelete bucket path)
  else if String.eqb method "HEAD" then
    HeadObjectCommand (mkHead bucket path)
  else
    GetObjectCommand (mkGet bucket path None).

(** [BlobClient.presigned] *)
Definition BlobClient_presigned (w : World) (self : BlobClient) (path : string)
  (options : option PresignOptions) : M string :=
  let method :=
    nullish (match options with
             | Some o => ps_method o
             | None => None
             end) "GET" in
  let command := presigned_command self path method in
  let expiresIn :=
    nullish (match options with
             | Some o => ps_expiresIn o
             | None => None
             end) 3600 in
  sign w (blob_client self) command expiresIn.

(** ** R2FileReader: the remaining members *)

(** [R2FileReader.writer]: not implemented, it throws at once. *)
Definition writer (self : R2FileReader) (options : option R2Options) : M unit :=
  throw (new_Error "writer() not yet implemented").

(** The getter [R2FileReader.type]. *)
Definition type_ (self : R2FileReader) : string := "".

(** The getter [R2FileReader.readable]. *)
Definition readable (w : World) (self : R2FileReader)
  : list Call * ReadableStream :=
  stream w self.

(** The member [unlink = this.delete]. *)
Definition unlink (w : World) (self : R2FileReader) : M unit :=
  delete w self.

(** ** BlobClient: listing, deleting, size, and the helpers of [get] *)

(** The members of [R2ListOptions] that [BlobClient.list] reads. *)
Record R2ListOptions : Type := mkR2ListOptions {
  lo_prefix : option string;
  lo_delimiter : option string;
  lo_limit : option Z;
  lo_cursor : option string;
  lo_startAfter : option string
}.

(** An entry of [objects]; [range] and [checksums] are the empty object in
    every entry and [writeHttpMetadata] does nothing, they are left out. *)
Record BlobObject : Type := mkBlobObject {
  obj_key : option string;
  obj_size : Z;
  obj_etag : string;
  obj_httpEtag : string;
  obj_uploaded : Date;
  obj_version : string;
  obj_storageClass : option string
}.

Record R2Objects : Type := mkR2Objects {
  delimitedPrefixes : list (option string);
  truncated : bool;
  cursor : option string;
  objects : list BlobObject
}.

(** [x || false] on a possibly undefined boolean. *)
Definition or_false (x : option bool) : bool :=
  match x with
  | Some b => b
  | None => false
  end.

(** [x || new Date()] on a possibly undefined date. *)
Definition or_now (w : World) (x : option Date) : Date :=
  match x with
  | Some d => if truthy_date d then d else now w
  | None => now w
  end.

(** The callback mapped over [response.Contents || []]. *)
Definition blob_object (w : World) (item : RawObject) : BlobObject :=
  {| obj_key := raw_Key item;
     obj_size := or_number (raw_Size item) 0;
     obj_etag := or_default (raw_ETag item) "";
     obj_httpEtag := or_default (raw_ETag item) "";
     obj_uploaded := or_now w (raw_LastModified item);
     obj_version := "";
     obj_storageClass := raw_StorageClass item |}.

(** [BlobClient.list] *)
Definition BlobClient_list (w : World) (self : BlobClient)
  (input : option R2ListOptions) : M R2Objects :=
  response <- send_list w (blob_client self)
                {| list_Bucket := Some (bo_bucket (blob_options self));
                   list_Prefix := match input with
                                  | Some i => lo_prefix i
                                  | None => None
                                  end;
                   list_ContinuationToken := match input with
                                             | Some i => lo_cursor i
                                             | None => None
                                             end;
                   list_Delimiter := match input with
                                     | Some i => lo_delimiter i
                                     | None => None
                                     end;
                   list_MaxKeys := match input with
                                   | Some i => lo_limit i
                                   | None => None
                                   end;
                   list_FetchOwner := None;
                   list_EncodingType := None;
                   list_StartAfter := match input with
                                      | Some i => lo_startAfter i
                                      | None => None
                                      end |} ;;
  let objects_ := map (blob_object w) (nullish (out_Contents response) []) in
  ret {| delimitedPrefixes :=
           nullish (option_map (map raw_Prefix) (out_CommonPrefixes response)) [];
         truncated := or_false (out_IsTruncated response);
         cursor := out_NextContinuationToken response;
         objects := objects_ |}.

(** [BlobClient.delete] and [BlobClient.unlink] *)
Definition BlobClient_delete (w : World) (self : BlobClient) (path : string)
  : M unit :=
  _ <- send_delete w (blob_client self)
         (mkDelete (bo_bucket (blob_options self)) path) ;;
  ret tt.

Definition BlobClient_unlink (w : World) (self : BlobClient) (path : string)
  : M unit :=
  BlobClient_delete w self path.

(** [BlobClient.size] *)
Definition BlobClient_size (w : World) (self : BlobClient) (path : string)
  : M Z :=
  response <- send_head w (blob_client self)
                (mkHead (bo_bucket (blob_options self)) path) ;;
  ret (nullish (out_ContentLength response) 0).

(** The [range] option of [BlobClient.get]: a [Headers] object, carrying
    what [get("range")] returns ([None] for [null]), or a plain object
    with the members [suffix], [offset] and [length]. *)
Inductive GetRange : Type :=
| RangeHeaders (range : option string)
| RangeObject (suffix offset length : member Z).

(** The decimal digits of an integer, with a minus sign when negative. *)
Definition decimal (n : Z) : string :=
  NilZero.string_of_int (Z.to_int n).

(** A number inside a template literal: its decimal digits below 10^21,
    and from there on the exponent form, which [exponent_form] stands
    for. *)
Definition number_to_string (exponent_form : Z -> string) (n : Z) : string :=
  if (Z.abs n <? 10 ^ 21)%Z then decimal n else exponent_form n.

(** A possibly undefined number inside a template literal. *)
Definition template_number (exponent_form : Z -> string) (x : option Z)
  : string :=
  match x with
  | Some n => number_to_string exponent_form n
  | None => "undefined"
  end.

(** The local [rangeHeader] of [BlobClient.get] after the handling of the
    range option. *)
Definition get_rangeHeader (exponent_form : Z -> string)
  (range : option GetRange) : option string :=
  match range with
  | None => None
  | Some (RangeHeaders h) => h
  | Some (RangeObject suffix offset length) =>
      if own suffix then
        Some ("bytes=-" ++ template_number exponent_form (get suffix))
      else
        match own offset, get offset with
        | true, Some start =>
            let end_ :=
              match get length with
              | Some l =>
                  if truthy_number l then
                    number_to_string exponent_form
                      (js_sub (js_add start l) 1)
                  else ""
              | None => ""
              end in
            Some ("bytes=" ++ number_to_string exponent_form start
                  ++ "-" ++ end_)
        | _, _ =>
            match own length, get length with
            | true, Some l =>
                Some ("bytes=0-" ++ number_to_string exponent_form (js_sub l 1))
            | _, _ => None
            end
        end
  end.

(** The reading loop of the [arrayBuffer] method of the object [get]
    returns: every chunk read is pushed on [chunks] and counted in
    [totalLength]. *)
Fixpoint read_chunks (pending chunks : list Bytes) (totalLength : nat)
  : list Bytes * nat :=
  match pending with
  | [] => (chunks, totalLength)
  | value :: rest =>
      read_chunks rest (chunks ++ [value])%list (totalLength + List.length value)
  end.

(** [target.set(source, offset)] on a typed array: a [RangeError] ([None])
    when the source does not fit. *)
Definition typed_array_set (target source : Bytes) (offset : nat)
  : option Bytes :=
  if (offset + List.length source <=? List.length target)%nat then
    Some (firstn offset target ++ source
          ++ skipn (offset + List.length source) target)%list
  else None.

(** The copying loop: each chunk is set at [offset], which then advances
    by the length of the chunk. *)
Fixpoint copy_chunks (chunks : list Bytes) (result : Bytes) (offset : nat)
  : option Bytes :=
  match chunks with
  | [] => Some result
  | chunk :: rest =>
      match typed_array_set result chunk offset with
      | Some result' => copy_chunks rest result' (offset + List.length chunk)
      | None => None
      end
  end.

Definition range_error : JsThrown :=
  mkThrown true (Some "RangeError") "offset is out of bounds".

(** The [arrayBuffer] method of the object [get] returns, over the body
    its reader reads, at its first call.  When the answer has no body the
    method reads a fresh [ReadableStream], which never ends: that case has
    no result and is not part of this function. *)
Definition body_arrayBuffer (body : StreamingBody) : Result Bytes :=
  match body_failure body with
  | Some error => Throw error
  | None =>
      let '(chunks, totalLength) := read_chunks (body_chunks body) [] 0 in
      match copy_chunks chunks (repeat Byte.x00 totalLength) 0 with
      | Some result => Ok result
      | None => Throw range_error
      end
  end.

(** The GET every read operation of a reference sends. *)
Definition read_call (R : R2FileReader) : Call :=
  Sent (client_ R) (GetObjectCommand (mkGet (bucket_ R) (name R) None)).

(** ** Properties of references and of list responses *)

(** The command inputs of the two listings, for the statements below. *)
Definition lib_list_input (input : option R2ListObjectsOptions)
  (options : option R2Options) : ListObjectsV2Input :=
  {| list_Bucket := opt_read opt_bucket options;
     list_Prefix := in_read in_prefix input;
     list_ContinuationToken := in_read in_continuationToken input;
     list_Delimiter := in_read in_delimiter input;
     list_MaxKeys := in_read in_maxKeys input;
     list_FetchOwner := in_read in_fetchOwner input;
     list_EncodingType := in_read in_encodingType input;
     list_StartAfter := in_read in_startAfter input |}.

Definition Client_list_input (options : option R2Options) : ListObjectsV2Input :=
  mkList (opt_read opt_bucket options) None None None None None None None.

(** The range invariant of the data model: when both [begin] and [end] are
    present, [begin <= end]. *)
Definition range_ok (r : option Range) : bool :=
  match r with
  | Some {| range_begin := Present b; range_end := Present e |} => (b <=? e)%Z
  | _ => true
  end.

(** The numbers of a range are doubles: rounding leaves them as they are. *)
Definition range_doubles (r : option Range) : Prop :=
  (forall x, range_read range_begin r = Some x -> round_even x = x)
  /\ (forall x, range_read range_end r = Some x -> round_even x = x).

(** References obtained from [file(path, options)] by any calls of [slice]. *)
Inductive reachable (env : option string) : R2FileReader -> Prop :=
| reach_file (path : string) (options : option R2Options) :
    reachable env (new_R2FileReader env path options None)
| reach_slice (R : R2FileReader) (a1 a2 : SliceArg) (ct : option string) :
    reachable env R -> reachable env (slice env R a1 a2 ct).

(** A call of [slice] stays in the window of the reference: its [begin] is
    not beyond its [end], nor beyond the end of the existing window. *)
Definition slice_in_window (R : R2FileReader) (a1 a2 : SliceArg)
  (ct : option string) : bool :=
  match slice_parse a1 a2 ct with
  | (Some b, end_, _) =>
      match end_ with
      | Some e => (b <=? e)%Z
      | None => true
      end
      && match range_read range_end (range_ R) with
         | Some e0 => (nullish (range_read range_begin (range_ R)) 0 + b <=? e0)%Z
         | None => true
         end
  | (None, _, _) => true
  end.

(** References obtained from [file(path, options)] by calls of [slice] that
    stay in the window. *)
Inductive reachable_in_window (env : option string) : R2FileReader -> Prop :=
| window_file (path : string) (options : option R2Options) :
    reachable_in_window env (new_R2FileReader env path options None)
| window_slice (R : R2FileReader) (a1 a2 : SliceArg) (ct : option string) :
    reachable_in_window env R ->
    slice_in_window R a1 a2 ct = true ->
    reachable_in_window env (slice env R a1 a2 ct).

(** A member is not present holding [undefined]. *)
Definition defined_member {A} (m : member A) : bool :=
  match m with
  | Undefined => false
  | _ => true
  end.

(** A member holding a record or an array is omitted, or holds a value
    that satisfies [p]. *)
Definition sparse_member {A} (p : A -> bool) (m : member A) : bool :=
  match m with
  | Absent => true
  | Undefined => false
  | Present a => p a
  end.

Definition sparse_owner (o : Owner) : bool :=
  defined_member (owner_id o) && defined_member (owner_displayName o).

Definition sparse_restoreStatus (s : RestoreStatus) : bool :=
  defined_member (rs_isRestoreInProgress s)
  && defined_member (rs_restoreExpiryDate s).

(** The direct members of a content entry, not looking into the nested
    records. *)
Definition sparse_content_members (c : R2ListObjectContent) : bool :=
  defined_member (c_eTag c) && defined_member (c_key c)
  && defined_member (c_checksumAlgorithm c) && defined_member (c_checksumType c)
  && defined_member (c_lastModified c) && defined_member (c_owner c)
  && defined_member (c_restoreStatus c) && defined_member (c_size c)
  && defined_member (c_storageClass c).

(** A content entry with its nested records. *)
Definition sparse_content (c : R2ListObjectContent) : bool :=
  sparse_content_members c
  && sparse_member sparse_owner (c_owner c)
  && sparse_member sparse_restoreStatus (c_restoreStatus c).

(** The members of a response, with [p] deciding each content entry. *)
Definition sparse_response_with (p : R2ListObjectContent -> bool)
  (r : R2ListObjectsResponse) : bool :=
  defined_member (r_name r)
  && sparse_member (forallb (fun x => defined_member (cp_prefix x)))
       (r_commonPrefixes r)
  && defined_member (r_delimiter r) && defined_member (r_continuationToken r)
  && defined_member (r_isTruncated r) && defined_member (r_encodingType r)
  && defined_member (r_startAfter r) && defined_member (r_maxKeys r)
  && defined_member (r_keyCount r) && defined_member (r_prefix r)
  && defined_member (r_nextContinuationToken r)
  && sparse_member (forallb p) (r_contents r).

(** No member of the response or of a record nested in it is present
    holding [undefined]. *)
Definition sparse_response (r : R2ListObjectsResponse) : bool :=
  sparse_response_with sparse_content r.

(** The same, not looking into [owner] and [restoreStatus]. *)
Definition sparse_response_members (r : R2ListObjectsResponse) : bool :=
  sparse_response_with sparse_content_members r.

Definition is_some {A} (x : option A) : bool :=
  match x with
  | Some _ => true
  | None => false
  end.

(** An optional member of a content entry is present only when the source
    field was. *)
Definition content_from_source (c : RawObject) (o : R2ListObjectContent) : bool :=
  implb (own (c_checksumAlgorithm o)) (is_some (raw_ChecksumAlgorithm c))
  && implb (own (c_checksumType o)) (is_some (raw_ChecksumType c))
  && implb (own (c_lastModified o)) (is_some (raw_LastModified c))
  && implb (own (c_owner o)) (is_some (raw_Owner c))
  && implb (own (c_restoreStatus o)) (is_some (raw_RestoreStatus c))
  && implb (own (c_size o)) (is_some (raw_Size c))
  && implb (own (c_storageClass o)) (is_some (raw_StorageClass c)).

(** A member of the response is present only when the source field was. *)
Definition response_from_source (s : ListObjectsV2Output)
  (r : R2ListObjectsResponse) : bool :=
  implb (own (r_name r)) (is_some (out_Name s))
  && implb (own (r_commonPrefixes r)) (is_some (out_CommonPrefixes s))
  && implb (own (r_delimiter r)) (is_some (out_Delimiter s))
  && implb (own (r_continuationToken r)) (is_some (out_ContinuationToken s))
  && implb (own (r_isTruncated r)) (is_some (out_IsTruncated s))
  && implb (own (r_encodingType r)) (is_some (out_EncodingType s))
  && implb (own (r_startAfter r)) (is_some (out_StartAfter s))
  && implb (own (r_maxKeys r)) (is_some (out_MaxKeys s))
  && implb (own (r_keyCount r)) (is_some (out_KeyCount s))
  && implb (own (r_prefix r)) (is_some (out_Prefix s))
  && implb (own (r_nextContinuationToken r)) (is_some (out_NextContinuationToken s))
  && implb (own (r_contents r)) (is_some (out_Contents s)).

(** The recognized methods, in the order of the presign switch. *)
Definition recognized_method (m : string) : bool :=
  String.eqb m "GET" || String.eqb m "PUT" || String.eqb m "DELETE"
  || String.eqb m "HEAD".

(** The content type a write is expected to store: a non-empty override,
    otherwise a non-empty embedded type, otherwise none. *)
Definition content_type_precedence (override embedded : option string)
  : option string :=
  match override with
  | Some t => if truthy_string t then Some t else
                match embedded with
                | Some u => if truthy_string u then Some u else None
                | None => None
                end
  | None =>
      match embedded with
      | Some u => if truthy_string u then Some u else None
      | None => None
      end
  end.

(** The embedded content type of a request-like, response-like or
    blob-like payload. *)
Definition embedded_type (data : WriteData) : option string :=
  match data with
  | DataRequest _ h | DataResponse _ h => h
  | DataBlob _ t => Some t
  | _ => None
  end.

(** The body of such a payload. *)
Definition payload_body (data : WriteData) : option (Result Bytes) :=
  match data with
  | DataRequest b _ | DataResponse b _ | DataBlob b _ => Some b
  | _ => None
  end.

(** The expiry of each signature a computation asked for. *)
Definition signed_expiries (t : list Call) : list Z :=
  flat_map (fun c => match c with
                     | Signed _ _ n => [n]
                     | _ => []
                     end) t.

(** The content type of each PUT a computation sent. *)
Definition stored_content_types (t : list Call) : list (option string) :=
  flat_map (fun c => match c with
                     | Sent _ (PutObjectCommand i) => [put_ContentType i]
                     | _ => []
                     end) t.

(** ** A concrete world and concrete inputs *)

Definition not_found_error : JsThrown :=
  mkThrown true (Some "NotFound") "Not Found".

Definition no_such_key_error : JsThrown :=
  mkThrown true (Some "NoSuchKey") "The specified key does not exist.".

Definition access_denied_error : JsThrown :=
  mkThrown true (Some "AccessDenied") "Access Denied".

Definition hello_bytes : Bytes :=
  String.list_byte_of_string "hello".

(** A content entry whose owner carries no identifier and no name. *)
Definition anonymous_entry : RawObject :=
  {| raw_ETag := Some "etag-1";
     raw_Key := Some "a.txt";
     raw_ChecksumAlgorithm := None;
     raw_ChecksumType := None;
     raw_LastModified := None;
     raw_Owner := Some (mkRawOwner None None);
     raw_RestoreStatus := None;
     raw_Size := Some 5;
     raw_StorageClass := None |}.

Definition anonymous_listing : ListObjectsV2Output :=
  mkListOut (Some "my-bucket") None None None (Some false) None None
    (Some 1000) (Some 1) None None (Some [anonymous_entry]).

(** The listing of a bucket with no matching object. *)
Definition empty_listing : ListObjectsV2Output :=
  mkListOut (Some "my-bucket") None None None (Some false) None None
    (Some 1000) (Some 0) None None None.

(** A bucket that holds [greeting.txt], answers [missing.txt] and
    [gone.txt] with not-found errors and refuses everything else; it
    lists one entry under [owned/] and nothing elsewhere. *)
Definition sample_world : World :=
  {| env_R2_ENDPOINT := Some "https://r2.example";
     now := MkDate 1700000000000;
     toISOString := fun _ => "2023-11-14T22:13:20.000Z";
     utf8_encode := String.list_byte_of_string;
     utf8_decode := String.string_of_list_byte;
     Json := string;
     JSON_parse := fun s => Ok s;
     s3_get := fun _ i =>
       if String.eqb (get_Key i) "greeting.txt"
       then Ok (mkGetOut (Some (mkBody [hello_bytes] None)))
       else Throw no_such_key_error;
     s3_head := fun _ i =>
       if String.eqb (head_Key i) "greeting.txt"
       then Ok (mkHeadOut (Some "text/plain") (Some "etag-1") (Some 5) None)
       else if String.eqb (head_Key i) "missing.txt" then Throw not_found_error
       else if String.eqb (head_Key i) "gone.txt" then Throw no_such_key_error
       else Throw access_denied_error;
     s3_put := fun _ i =>
       if String.eqb (put_Key i) "readonly.txt" then Throw access_denied_error
       else Ok tt;
     s3_delete := fun _ i =>
       if String.eqb (del_Key i) "greeting.txt" then Ok tt
       else Throw access_denied_error;
     s3_list := fun _ i =>
       match list_Bucket i with
       | Some _ =>
           match list_Prefix i with
           | Some "owned/" => Ok anonymous_listing
           | _ => Ok empty_listing
           end
       | None => Throw access_denied_error
       end;
     getSignedUrl := fun _ _ _ => Ok "https://r2.example/signed" |}.

Definition sample_options : R2Options :=
  {| opt_bucket := Present "my-bucket";
     opt_endpoint := Absent;
     opt_virtualHostedStyle := Absent;
     opt_accessKeyId := Present "key";
     opt_secretAccessKey := Present "secret";
     opt_sessionToken := Absent;
     opt_region := Absent;
     opt_type := Present "text/plain";
     opt_acl := Absent;
     opt_storageClass := Absent |}.

Definition sample_file (path : string) : R2FileReader :=
  Client_file sample_world (mkClient (Some sample_options)) path None.

Definition sample_blob_client : BlobClient :=
  new_BlobClient (mkBlobOptions "my-bucket" None "key" "secret"
                    (Some "https://r2.example") None).

(** A listing input under [owned/]. *)
Definition owned_input : R2ListObjectsOptions :=
  {| in_prefix := Some "owned/";
     in_continuationToken := None;
     in_delimiter := None;
     in_maxKeys := None;
     in_startAfter := None;
     in_encodingType := None;
     in_fetchOwner := Some true |}.

(** The listing input of the documentation of [Client.list]. *)
Definition uploads_input : R2ListObjectsOptions :=
  {| in_prefix := Some "uploads/";
     in_continuationToken := None;
     in_delimiter := None;
     in_maxKeys := Some 500;
     in_startAfter := None;
     in_encodingType := None;
     in_fetchOwner := Some true |}.

(** A reference whose window is [10, 12). *)
Definition windowed_file : R2FileReader :=
  new_R2FileReader None "a.bin" None (Some (mkRange (Present 10) (Present 12))).

(** A fresh reference sliced to an empty-looking window, begin after end. *)
Definition inverted_file : R2FileReader :=
  slice None (new_R2FileReader None "a.bin" None None)
    (ArgNumber 5) (ArgNumber 3) None.

(** A fresh reference sliced twice inside its window. *)
Definition nested_file : R2FileReader :=
  slice None
    (slice None (new_R2FileReader None "a.bin" None None)
       (ArgNumber 2) (ArgNumber 9) None)
    (ArgNumber 1) (ArgNumber 4) None.

(** Options without a content-type override, and with an empty one. *)
Definition untyped_options : R2Options :=
  {| opt_bucket := Present "my-bucket";
     opt_endpoint := Absent;
     opt_virtualHostedStyle := Absent;
     opt_accessKeyId := Present "key";
     opt_secretAccessKey := Present "secret";
     opt_sessionToken := Absent;
     opt_region := Absent;
     opt_type := Absent;
     opt_acl := Absent;
     opt_storageClass := Absent |}.

Definition empty_type_options : R2Options :=
  {| opt_bucket := Absent;
     opt_endpoint := Absent;
     opt_virtualHostedStyle := Absent;
     opt_accessKeyId := Absent;
     opt_secretAccessKey := Absent;
     opt_sessionToken := Absent;
     opt_region := Absent;
     opt_type := Present "";
     opt_acl := Absent;
     opt_storageClass := Absent |}.

Definition untyped_file (path : string) : R2FileReader :=
  Client_static_file sample_world path (Some untyped_options).

(** A response whose header says [content-type: application/json]. *)
Definition json_response : WriteData :=
  DataResponse (Ok hello_bytes) (Some "application/json").

(** Presign options of the per-object path. *)
Definition presign_with (method : option string) (expiresIn : option Z)
  : R2FilePresignOptions :=
  mkPresignOptions empty_options method expiresIn.

Definition jpeg_put_options : R2FilePresignOptions :=
  {| pre_options :=
       {| opt_bucket := Absent;
          opt_endpoint := Absent;
          opt_virtualHostedStyle := Absent;
          opt_accessKeyId := Absent;
          opt_secretAccessKey := Absent;
          opt_sessionToken := Absent;
          opt_region := Absent;
          opt_type := Present "image/jpeg";
          opt_acl := Present "public-read";
          opt_storageClass := Absent |};
     pre_method := Some "PUT";
     pre_expiresIn := Some 3600 |}.

(** Presign options of [BlobClient] with the method POST, which its type
    admits and its switch does not list. *)
Definition post_options : PresignOptions :=
  mkPresign None (Some "POST") None.

(** ** Further properties and inputs *)

(** One call of [slice]: its three arguments. *)
Record SliceCall : Type := mkSliceCall {
  call_first : SliceArg;
  call_second : SliceArg;
  call_type : option string
}.

(** A chain of calls, [R.slice(...).slice(...)...]. *)
Fixpoint slice_all (env : option string) (R : R2FileReader)
  (calls_ : list SliceCall) : R2FileReader :=
  match calls_ with
  | [] => R
  | c :: rest =>
      slice_all env
        (slice env R (call_first c) (call_second c) (call_type c)) rest
  end.

(** A call is sent through the client of [R] to the object of [R]. *)
Definition targets_reference (R : R2FileReader) (c : Call) : Prop :=
  match c with
  | Sent cl (GetObjectCommand i) =>
      cl = client_ R /\ get_Bucket i = bucket_ R /\ get_Key i = name R
  | Sent cl (HeadObjectCommand i) =>
      cl = client_ R /\ head_Bucket i = bucket_ R /\ head_Key i = name R
  | Sent cl (PutObjectCommand i) =>
      cl = client_ R /\ put_Bucket i = bucket_ R /\ put_Key i = name R
  | Sent cl (DeleteObjectCommand i) =>
      cl = client_ R /\ del_Bucket i = bucket_ R /\ del_Key i = name R
  | Sent _ (ListObjectsV2Command _) => False
  | Signed _ _ _ => False
  | Logged _ => True
  end.

(** The commands a computation sent. *)
Definition sent_commands (t : list Call) : list Command :=
  flat_map (fun c => match c with
                     | Sent _ cmd => [cmd]
                     | _ => []
                     end) t.

(** A body read in two chunks, and one whose transport fails after the
    first chunk. *)
Definition two_chunk_body : StreamingBody :=
  mkBody [String.list_byte_of_string "he"; String.list_byte_of_string "llo"]
    None.



(** Per-call options that set the bucket to [undefined] and the tags of a
    public upload. *)
Definition public_upload_options : R2Options :=
  {| opt_bucket := Absent;
     opt_endpoint := Absent;
     opt_virtualHostedStyle := Absent;
     opt_accessKeyId := Absent;
     opt_secretAccessKey := Absent;
     opt_sessionToken := Absent;
     opt_region := Absent;
     opt_type := Present "text/html";
     opt_acl := Present "public-read";
     opt_storageClass := Present "STANDARD_IA" |}.

Definition undefined_bucket_options : R2Options :=
  {| opt_bucket := Undefined;
     opt_endpoint := Absent;
     opt_virtualHostedStyle := Absent;
     opt_accessKeyId := Absent;
     opt_secretAccessKey := Absent;
     opt_sessionToken := Absent;
     opt_region := Absent;
     opt_type := Absent;
     opt_acl := Absent;
     opt_storageClass := Absent |}.

(** A truncated page of a listing, with the cursor of the next page. *)
Definition truncated_listing : ListObjectsV2Output :=
  mkListOut (Some "my-bucket") None None None (Some true) None None
    (Some 1) (Some 1) (Some "") (Some "token-2") (Some [anonymous_entry]).

(** The input of the next page as a caller builds it: the same filters,
    with the cursor the previous page returned. *)
Definition next_page (input : R2ListObjectsOptions) (r : R2ListObjectsResponse)
  : R2ListObjectsOptions :=
  {| in_prefix := in_prefix input;
     in_continuationToken := get (r_nextContinuationToken r);
     in_delimiter := in_delimiter input;
     in_maxKeys := in_maxKeys input;
     in_startAfter := in_startAfter input;
     in_encodingType := in_encodingType input;
     in_fetchOwner := in_fetchOwner input |}.

(** A PUT that carries neither an access-control-list tag nor a storage
    class. *)
Definition untagged_put (path : string) (c : Command) : Prop :=
  match c with
  | PutObjectCommand i =>
      put_Key i = path /\ put_ACL i = None /\ put_StorageClass i = None
  | _ => False
  end.


(** A reference that begins at the last safe integer, 2^53 - 1. *)
Definition far_file : R2FileReader :=
  slice None (new_R2FileReader None "a.bin" None None)
    (ArgNumber 9007199254740991) ArgUndefined None.

(** * Range composition *)

(** Case analysis on the four arms of a presign switch over the method
    [m]; [tac] closes the arms that are taken. *)
Ltac by_method m tac :=
  destruct (String.eqb m "GET"); [tac |];
  destruct (String.eqb m "PUT"); [tac |];
  destruct (String.eqb m "DELETE"); [tac |];
  destruct (String.eqb m "HEAD"); [tac |].

(** ** Rounding to the nearest double *)

Lemma round_magnitude_small (m : Z) : m < 2 ^ 53 -> round_magnitude m = m.
Proof.
  intro H. unfold round_magnitude.
  destruct (Z.ltb_spec m (2 ^ 53)); [reflexivity | lia].
Qed.

(** From 2^53 on: the spacing [s] of the binade of [m], the quotient [q]
    and the remainder [r] of [m] by it. *)
Lemma round_magnitude_large (m : Z) :
  2 ^ 53 <= m ->
  exists s q r,
    s = 2 ^ (Z.log2 m - 52) /\ 0 < s /\ m = q * s + r /\ 0 <= r < s
    /\ 2 ^ 52 <= q < 2 ^ 53
    /\ round_magnitude m = round_choice q r s * s.
Proof.
  intro H.
  assert (Hm : 0 < m) by lia.
  assert (Hk : 53 <= Z.log2 m).
  { change 53 with (Z.log2 (2 ^ 53)). apply Z.log2_le_mono. exact H. }
  destruct (Z.log2_spec m Hm) as [Hlo Hhi].
  set (k := Z.log2 m) in *.
  set (s := 2 ^ (k - 52)).
  assert (Hs : 0 < s) by (apply Z.pow_pos_nonneg; lia).
  assert (Hlo' : 2 ^ k = 2 ^ 52 * s).
  { unfold s. rewrite <- Z.pow_add_r by lia. f_equal. lia. }
  assert (Hhi' : 2 ^ Z.succ k = 2 ^ 53 * s).
  { unfold s. rewrite <- Z.pow_add_r by lia. f_equal. lia. }
  exists s, (m / s), (m mod s).
  pose proof (Z.div_mod m s ltac:(lia)) as Hdm.
  pose proof (Z.mod_pos_bound m s Hs) as Hr.
  repeat split; try lia.
  - nia.
  - nia.
  - unfold round_magnitude.
    destruct (Z.ltb_spec m (2 ^ 53)); [lia | reflexivity].
Qed.

Lemma round_choice_bounds (q r s : Z) :
  q <= round_choice q r s <= q + 1.
Proof.
  unfold round_choice.
  destruct (2 * r <? s)%Z; [lia |].
  destruct (s <? 2 * r)%Z; [lia |].
  destruct (Z.even q); lia.
Qed.

Lemma round_choice_zero (q s : Z) : 0 < s -> round_choice q 0 s = q.
Proof.
  intro H. unfold round_choice.
  destruct (Z.ltb_spec (2 * 0) s); [reflexivity | lia].
Qed.

Lemma round_choice_mono (q r r' s : Z) :
  r <= r' -> round_choice q r s <= round_choice q r' s.
Proof.
  intro H. unfold round_choice.
  destruct (Z.ltb_spec (2 * r) s), (Z.ltb_spec (2 * r') s); try lia;
    destruct (Z.ltb_spec s (2 * r)), (Z.ltb_spec s (2 * r')); try lia;
    destruct (Z.even q); lia.
Qed.

(** The rounded value stays in the closed binade of [m]. *)
Lemma round_magnitude_binade (m : Z) :
  2 ^ 53 <= m ->
  2 ^ Z.log2 m <= round_magnitude m <= 2 ^ Z.succ (Z.log2 m).
Proof.
  intro H.
  destruct (round_magnitude_large m H)
    as (s & q & r & Hs & Hpos & Hm & Hr & Hq & Hrm).
  assert (Hk : 53 <= Z.log2 m).
  { change 53 with (Z.log2 (2 ^ 53)). apply Z.log2_le_mono. exact H. }
  assert (Hlo' : 2 ^ Z.log2 m = 2 ^ 52 * s).
  { subst s. rewrite <- Z.pow_add_r by lia. f_equal. lia. }
  assert (Hhi' : 2 ^ Z.succ (Z.log2 m) = 2 ^ 53 * s).
  { subst s. rewrite <- Z.pow_add_r by lia. f_equal. lia. }
  pose proof (round_choice_bounds q r s).
  rewrite Hrm, Hlo', Hhi'. nia.
Qed.

Lemma round_magnitude_nonneg (m : Z) : 0 <= m -> 0 <= round_magnitude m.
Proof.
  intro H. destruct (Z.lt_ge_cases m (2 ^ 53)) as [Hs | Hl].
  - rewrite round_magnitude_small by exact Hs. exact H.
  - pose proof (round_magnitude_binade m Hl).
    pose proof (Z.pow_nonneg 2 (Z.log2 m) ltac:(lia)). lia.
Qed.

Lemma round_magnitude_mono (m m' : Z) :
  0 <= m -> m <= m' -> round_magnitude m <= round_magnitude m'.
Proof.
  intros H0 H.
  destruct (Z.lt_ge_cases m' (2 ^ 53)) as [Hs' | Hl'].
  - rewrite !round_magnitude_small by lia. exact H.
  - destruct (Z.lt_ge_cases m (2 ^ 53)) as [Hs | Hl].
    + rewrite (round_magnitude_small m Hs).
      pose proof (round_magnitude_binade m' Hl').
      assert (2 ^ 53 <= 2 ^ Z.log2 m').
      { apply Z.pow_le_mono_r; [lia |].
        change 53 with (Z.log2 (2 ^ 53)). apply Z.log2_le_mono. exact Hl'. }
      lia.
    + pose proof (Z.log2_le_mono m m' H) as Hk.
      destruct (Z.eq_dec (Z.log2 m) (Z.log2 m')) as [Heq | Hne].
      * destruct (round_magnitude_large m Hl)
          as (s & q & r & Hs & Hpos & Hm & Hr & Hq & Hrm).
        destruct (round_magnitude_large m' Hl')
          as (s' & q' & r' & Hs' & Hpos' & Hm' & Hr' & Hq' & Hrm').
        assert (Hss : s' = s) by (rewrite Hs, Hs', Heq; reflexivity).
        clear Hs Hs'. subst s'.
        rewrite Hrm, Hrm'.
        pose proof (round_choice_bounds q r s).
        pose proof (round_choice_bounds q' r' s).
        destruct (Z.eq_dec q q') as [-> | Hq_ne].
        -- assert (Hrr : r <= r') by lia.
           apply Z.mul_le_mono_nonneg_r; [lia |].
           apply round_choice_mono. exact Hrr.
        -- assert (Hlt : q < q').
           { destruct (Z.lt_ge_cases q q') as [Hlt | Hge]; [exact Hlt |].
             assert (q' * s + s <= q * s) by nia. lia. }
           apply Z.le_trans with ((q + 1) * s).
           ++ apply Z.mul_le_mono_nonneg_r; lia.
           ++ apply Z.le_trans with (q' * s).
              ** apply Z.mul_le_mono_nonneg_r; lia.
              ** apply Z.mul_le_mono_nonneg_r; lia.
      * pose proof (round_magnitude_binade m Hl).
        pose proof (round_magnitude_binade m' Hl').
        assert (2 ^ Z.succ (Z.log2 m) <= 2 ^ Z.log2 m').
        { apply Z.pow_le_mono_r; lia. }
        lia.
Qed.

Lemma quotient_unique (c q r s : Z) :
  0 < s -> c * s = q * s + r -> 0 <= r < s -> q = c /\ r = 0.
Proof.
  intros Hs He Hr.
  assert (Hq : q = c).
  { destruct (Z.lt_trichotomy q c) as [Hlt | [Heq | Hgt]]; [| exact Heq |].
    - assert ((q + 1) * s <= c * s) by (apply Z.mul_le_mono_nonneg_r; lia).
      lia.
    - assert ((c + 1) * s <= q * s) by (apply Z.mul_le_mono_nonneg_r; lia).
      lia. }
  subst q. split; [reflexivity | lia].
Qed.

(** A rounded value is a double: rounding it again changes nothing. *)
Lemma round_magnitude_idempotent (m : Z) :
  0 <= m -> round_magnitude (round_magnitude m) = round_magnitude m.
Proof.
  intro H0. destruct (Z.lt_ge_cases m (2 ^ 53)) as [Hs | Hl].
  - rewrite !round_magnitude_small by (rewrite ?round_magnitude_small; lia).
    reflexivity.
  - destruct (round_magnitude_large m Hl)
      as (s & q & r & Hs & Hpos & Hm & Hr & Hq & Hrm).
    assert (Hk : 53 <= Z.log2 m).
    { change 53 with (Z.log2 (2 ^ 53)). apply Z.log2_le_mono. exact Hl. }
    assert (Hlo' : 2 ^ Z.log2 m = 2 ^ 52 * s).
    { subst s. rewrite <- Z.pow_add_r by lia. f_equal. lia. }
    assert (Hhi' : 2 ^ Z.succ (Z.log2 m) = 2 ^ 53 * s).
    { subst s. rewrite <- Z.pow_add_r by lia. f_equal. lia. }
    pose proof (round_choice_bounds q r s) as Hc.
    set (c := round_choice q r s) in *.
    set (v := round_magnitude m) in *.
    assert (Hv : 2 ^ 53 <= v) by nia.
    destruct (round_magnitude_large v Hv)
      as (s2 & q2 & r2 & Hs2 & Hpos2 & Hm2 & Hr2 & Hq2 & Hrm2).
    destruct (Z.eq_dec c (2 ^ 53)) as [Hc53 | Hc53].
    + assert (Hlog : Z.log2 v = Z.succ (Z.log2 m)).
      { apply Z.log2_unique; [lia |].
        rewrite Hhi'. split; [nia |].
        rewrite Z.pow_succ_r by lia. nia. }
      assert (Hs2' : s2 = 2 * s).
      { subst s2 s. rewrite Hlog.
        replace (Z.succ (Z.log2 m) - 52) with (Z.succ (Z.log2 m - 52)) by lia.
        rewrite Z.pow_succ_r by lia. reflexivity. }
      assert (q2 = 2 ^ 52 /\ r2 = 0) as [-> ->].
      { apply (quotient_unique (2 ^ 52) q2 r2 s2); [lia | | lia].
        rewrite <- Hm2, Hrm, Hc53, Hs2'. lia. }
      rewrite Hrm2, round_choice_zero by lia.
      rewrite Hrm, Hc53, Hs2'. lia.
    + assert (Hlog : Z.log2 v = Z.log2 m).
      { apply Z.log2_unique; [lia |]. rewrite Hhi', Hlo'. split; nia. }
      assert (Hs2' : s2 = s) by (rewrite Hs2, Hs, Hlog; reflexivity).
      clear Hs2. subst s2.
      assert (q2 = c /\ r2 = 0) as [-> ->].
      { apply (quotient_unique c q2 r2 s); [lia | | lia].
        rewrite <- Hm2, Hrm. reflexivity. }
      rewrite Hrm2, round_choice_zero by lia.
      rewrite Hrm. reflexivity.
Qed.

Lemma sgn_times_abs (n : Z) : Z.sgn n * Z.abs n = n.
Proof.
  destruct n; reflexivity.
Qed.

(** On the safe integers rounding is the identity. *)
Lemma round_even_safe (n : Z) : safe n -> round_even n = n.
Proof.
  unfold safe, round_even. intro H.
  destruct (Z.eq_dec (Z.abs n) (2 ^ 53)) as [He | Hne].
  - rewrite He. change (round_magnitude (2 ^ 53)) with (2 ^ 53).
    rewrite <- He. apply sgn_times_abs.
  - rewrite round_magnitude_small by lia. apply sgn_times_abs.
Qed.

Lemma round_even_nonneg (n : Z) : 0 <= n -> round_even n = round_magnitude n.
Proof.
  intro H. unfold round_even. rewrite Z.abs_eq by exact H.
  destruct (Z.eq_dec n 0) as [-> | Hn]; [reflexivity |].
  rewrite Z.sgn_pos by lia. apply Z.mul_1_l.
Qed.

Lemma round_even_nonpos (n : Z) :
  n <= 0 -> round_even n = - round_magnitude (- n).
Proof.
  intro H. unfold round_even. rewrite Z.abs_neq by exact H.
  destruct (Z.eq_dec n 0) as [-> | Hn]; [reflexivity |].
  rewrite Z.sgn_neg by lia. lia.
Qed.

(** Rounding keeps the order. *)
Lemma round_even_mono (n n' : Z) : n <= n' -> round_even n <= round_even n'.
Proof.
  intro H.
  destruct (Z.le_gt_cases 0 n) as [Hn | Hn].
  - rewrite !round_even_nonneg by lia. apply round_magnitude_mono; lia.
  - destruct (Z.le_gt_cases 0 n') as [Hn' | Hn'].
    + rewrite (round_even_nonpos n), (round_even_nonneg n') by lia.
      pose proof (round_magnitude_nonneg (- n) ltac:(lia)).
      pose proof (round_magnitude_nonneg n' Hn'). lia.
    + rewrite !round_even_nonpos by lia.
      pose proof (round_magnitude_mono (- n') (- n) ltac:(lia) ltac:(lia)).
      lia.
Qed.

Lemma round_even_idempotent (n : Z) : round_even (round_even n) = round_even n.
Proof.
  destruct (Z.le_gt_cases 0 n) as [Hn | Hn].
  - rewrite (round_even_nonneg n Hn).
    rewrite round_even_nonneg by (apply round_magnitude_nonneg; exact Hn).
    apply round_magnitude_idempotent. exact Hn.
  - rewrite (round_even_nonpos n) by lia.
    pose proof (round_magnitude_nonneg (- n) ltac:(lia)) as H0.
    rewrite round_even_nonpos by lia.
    rewrite Z.opp_involutive, round_magnitude_idempotent by lia.
    reflexivity.
Qed.

(** A sum or a difference that is a safe integer is computed exactly. *)
Lemma js_add_safe (x y : Z) : safe (x + y) -> js_add x y = x + y.
Proof.
  apply round_even_safe.
Qed.

Lemma js_sub_safe (x y : Z) : safe (x - y) -> js_sub x y = x - y.
Proof.
  apply round_even_safe.
Qed.

Section SliceProperties.

Variable env : option string.

(** [slice] builds a reference with the same name; its bucket and client
    are read from the options it had. *)
Lemma slice_name (R : R2FileReader) (a1 a2 : SliceArg) (ct : option string) :
  name (slice env R a1 a2 ct) = name R.
Proof.
  unfold slice. destruct (slice_parse a1 a2 ct) as [[b e] t]. reflexivity.
Qed.

(** The range of a slice by two numbers, in closed form. *)
Lemma slice_numbers_range (R : R2FileReader) (b e : Z) (ct : option string) :
  range_ (slice env R (ArgNumber b) (ArgNumber e) ct) =
  Some {| range_begin :=
            Present (js_add (nullish (range_read range_begin (range_ R)) 0) b);
          range_end :=
            Present
              match range_read range_end (range_ R) with
              | Some e0 =>
                  Z.min (js_add (nullish (range_read range_begin (range_ R)) 0) e)
                    e0
              | None => js_add (nullish (range_read range_begin (range_ R)) 0) e
              end |}.
Proof.
  unfold slice; cbn.
  destruct (range_read range_end (range_ R)); reflexivity.
Qed.

(** The range of a slice by one number. *)
Lemma slice_number_range (R : R2FileReader) (b : Z) (ct : option string) :
  range_ (slice env R (ArgNumber b) ArgUndefined ct) =
  Some {| range_begin :=
            Present (js_add (nullish (range_read range_begin (range_ R)) 0) b);
          range_end := assign (range_read range_end (range_ R)) |}.
Proof.
  unfold slice; cbn.
  destruct (range_read range_end (range_ R)); reflexivity.
Qed.

(** The range of a slice by one number and a content type. *)
Lemma slice_number_type_range (R : R2FileReader) (b : Z) (s : string)
  (ct : option string) :
  range_ (slice env R (ArgNumber b) (ArgString s) ct) =
  Some {| range_begin :=
            Present (js_add (nullish (range_read range_begin (range_ R)) 0) b);
          range_end := assign (range_read range_end (range_ R)) |}.
Proof.
  unfold slice; cbn.
  destruct (range_read range_end (range_ R)); reflexivity.
Qed.

(** A slice that parses no [begin] keeps the range it had. *)
Lemma slice_no_begin_range (R : R2FileReader) (a1 a2 : SliceArg)
  (ct : option string) :
  fst (fst (slice_parse a1 a2 ct)) = None ->
  range_ (slice env R a1 a2 ct) = range_ R.
Proof.
  destruct a1 as [| b | s]; cbn.
  - reflexivity.
  - destruct a2; discriminate.
  - reflexivity.
Qed.

(** C1, as amended: slicing is associative over the range as long as the
    first begin and the two relative offsets are computed exactly.  For all
    integers [a <= b <= c <= d] such that [(range.begin ?? 0) + a], [b - a]
    and [c - a] are safe integers (of magnitude at most 2^53), the range of
    [slice(slice(R, a, d), b-a, c-a)] is the range of [slice(R, b, c)], and
    that range is given by the composition rule: begin
    [(range.begin ?? 0) + b], end [min((range.begin ?? 0) + c, range.end)]
    when [range.end] is defined, [(range.begin ?? 0) + c] otherwise, where
    each sum is the addition of JavaScript numbers, which rounds to the
    nearest double beyond 2^53. *)
Theorem slice_associative (R : R2FileReader) (a b c d : Z)
  (ct1 ct2 ct3 : option string) :
  a <= b -> b <= c -> c <= d ->
  safe (nullish (range_read range_begin (range_ R)) 0 + a) ->
  safe (b - a) -> safe (c - a) ->
  range_ (slice env (slice env R (ArgNumber a) (ArgNumber d) ct1)
            (ArgNumber (js_sub b a)) (ArgNumber (js_sub c a)) ct2)
  = range_ (slice env R (ArgNumber b) (ArgNumber c) ct3)
  /\ range_ (slice env R (ArgNumber b) (ArgNumber c) ct3)
     = Some {| range_begin :=
                 Present
                   (js_add (nullish (range_read range_begin (range_ R)) 0) b);
               range_end :=
                 Present
                   match range_read range_end (range_ R) with
                   | Some e0 =>
                       Z.min
                         (js_add (nullish (range_read range_begin (range_ R)) 0)
                            c) e0
                   | None =>
                       js_add (nullish (range_read range_begin (range_ R)) 0) c
                   end |}.
Proof.
  intros Hab Hbc Hcd Ha Hba Hca.
  split; [| apply slice_numbers_range].
  rewrite (slice_numbers_range (slice env R (ArgNumber a) (ArgNumber d) ct1)).
  rewrite (slice_numbers_range R a d ct1), (slice_numbers_range R b c ct3).
  cbn [range_read range_begin range_end get nullish].
  set (B0 := nullish (range_read range_begin (range_ R)) 0) in *.
  rewrite (js_sub_safe b a Hba), (js_sub_safe c a Hca), (js_add_safe B0 a Ha).
  assert (Hb : js_add (B0 + a) (b - a) = js_add B0 b).
  { unfold js_add. f_equal. lia. }
  assert (Hc : js_add (B0 + a) (c - a) = js_add B0 c).
  { unfold js_add. f_equal. lia. }
  assert (Hcd' : js_add B0 c <= js_add B0 d).
  { apply round_even_mono. lia. }
  rewrite Hb.
  destruct (range_read range_end (range_ R)) as [e0 |];
    cbn [get]; rewrite Hc; do 3 f_equal; lia.
Qed.

(** C10: a slice called without a content-type argument, [slice()],
    [slice(begin)] or [slice(begin, end)], builds its options as
    [{ ...options, type }] with [type] undefined: the member [type] of the
    new options is present and holds [undefined], so it reads as
    [undefined] whatever override the reference had, while every other
    member is the one the reference had. *)
Theorem slice_without_type_erases_override (R : R2FileReader) (b e : Z) :
  let erased (S : R2FileReader) :=
    options_ S = with_type (options_ R) None
    /\ opt_type (options_ S) = Undefined
    /\ own (opt_type (options_ S)) = true
    /\ get (opt_type (options_ S)) = None
    /\ opt_acl (options_ S) = opt_acl (options_ R)
    /\ opt_storageClass (options_ S) = opt_storageClass (options_ R)
    /\ opt_bucket (options_ S) = opt_bucket (options_ R) in
  erased (slice env R ArgUndefined ArgUndefined None)
  /\ erased (slice env R (ArgNumber b) ArgUndefined None)
  /\ erased (slice env R (ArgNumber b) (ArgNumber e) None).
Proof.
  cbv zeta. repeat split.
Qed.

(** The numbers of the range of a slice are doubles when those of the
    range it was taken from are. *)
Lemma slice_range_doubles (R : R2FileReader) (a1 a2 : SliceArg)
  (ct : option string) :
  range_doubles (range_ R) ->
  range_doubles (range_ (slice env R a1 a2 ct)).
Proof.
  intros [Hb He].
  assert (Hadd : forall x y, round_even (js_add x y) = js_add x y)
    by (intros; apply round_even_idempotent).
  assert (Hend : forall x,
             assign (range_read range_end (range_ R)) = Present x ->
             round_even x = x).
  { intros x Hx. apply He.
    destruct (range_read range_end (range_ R)); [| discriminate].
    injection Hx as ->. reflexivity. }
  destruct a1 as [| b | s].
  - rewrite slice_no_begin_range by reflexivity. split; assumption.
  - destruct a2 as [| e | s].
    + rewrite slice_number_range. split; cbn; intros x Hx.
      * injection Hx as <-. apply Hadd.
      * apply Hend.
        destruct (assign (range_read range_end (range_ R)));
          try discriminate.
        injection Hx as ->. reflexivity.
    + rewrite slice_numbers_range. split; cbn; intros x Hx.
      * injection Hx as <-. apply Hadd.
      * injection Hx as <-.
        destruct (range_read range_end (range_ R)) as [e0 |] eqn:E;
          [| apply Hadd].
        destruct (Z.min_spec
                    (js_add (nullish (range_read range_begin (range_ R)) 0) e)
                    e0) as [[_ ->] | [_ ->]].
        -- apply Hadd.
        -- apply He. reflexivity.
    + rewrite slice_number_type_range. split; cbn; intros x Hx.
      * injection Hx as <-. apply Hadd.
      * apply Hend.
        destruct (assign (range_read range_end (range_ R)));
          try discriminate.
        injection Hx as ->. reflexivity.
  - rewrite slice_no_begin_range by reflexivity. split; assumption.
Qed.

(** A begin that is not beyond an end that is a double stays so when the
    sum is rounded. *)
Lemma js_add_below_double (x y e0 : Z) :
  round_even e0 = e0 -> (x + y <=? e0)%Z = true -> (js_add x y <=? e0)%Z = true.
Proof.
  intros He H. apply Z.leb_le in H. apply Z.leb_le.
  rewrite <- He. apply round_even_mono. exact H.
Qed.

(** One step of slicing in the window gives a range that satisfies the
    invariant, provided the range it started from did. *)
Lemma slice_in_window_range_ok (R : R2FileReader) (a1 a2 : SliceArg)
  (ct : option string) :
  range_ok (range_ R) = true ->
  range_doubles (range_ R) ->
  slice_in_window R a1 a2 ct = true ->
  range_ok (range_ (slice env R a1 a2 ct)) = true.
Proof.
  intros HR [_ Hd] Hw.
  destruct a1 as [| b | s].
  - rewrite slice_no_begin_range by reflexivity. exact HR.
  - destruct a2 as [| e | s].
    + rewrite slice_number_range.
      unfold slice_in_window in Hw; cbn in Hw.
      destruct (range_read range_end (range_ R)) as [e0 |]; cbn.
      * apply js_add_below_double; [apply Hd; reflexivity | exact Hw].
      * reflexivity.
    + rewrite slice_numbers_range.
      unfold slice_in_window in Hw; cbn in Hw.
      apply andb_prop in Hw. destruct Hw as [Hbe Hb0].
      apply Z.leb_le in Hbe.
      assert (Hmono :
        js_add (nullish (range_read range_begin (range_ R)) 0) b
        <= js_add (nullish (range_read range_begin (range_ R)) 0) e)
        by (apply round_even_mono; lia).
      destruct (range_read range_end (range_ R)) as [e0 |]; cbn;
        apply Z.leb_le; [| exact Hmono].
      pose proof (js_add_below_double _ b e0 (Hd e0 eq_refl) Hb0) as Hb1.
      apply Z.leb_le in Hb1. lia.
    + rewrite slice_number_type_range.
      unfold slice_in_window in Hw; cbn in Hw.
      destruct (range_read range_end (range_ R)) as [e0 |]; cbn.
      * apply js_add_below_double; [apply Hd; reflexivity | exact Hw].
      * reflexivity.
  - rewrite slice_no_begin_range by reflexivity. exact HR.
Qed.

(** The references reached in the window keep both: the invariant, and
    ranges made of doubles. *)
Lemma reachable_in_window_invariants (R : R2FileReader) :
  reachable_in_window env R ->
  range_ok (range_ R) = true /\ range_doubles (range_ R).
Proof.
  induction 1 as [path options | R a1 a2 ct HR [IHok IHd] Hw].
  - split; [reflexivity |]. split; intros x Hx; discriminate Hx.
  - split.
    + apply slice_in_window_range_ok; assumption.
    + apply slice_range_doubles. exact IHd.
Qed.

(** C8, as amended: every reference obtained from [file(path, options)] by
    calls of [slice] whose [begin] is neither beyond their [end] nor beyond
    the end of the window they slice satisfies the range invariant: when
    both [begin] and [end] are present, [begin <= end]. *)
Theorem range_invariant_in_window (R : R2FileReader) :
  reachable_in_window env R -> range_ok (range_ R) = true.
Proof.
  intro H. apply reachable_in_window_invariants. exact H.
Qed.

End SliceProperties.

(** The claim C1 as stated fails: past 2^53 the sums are rounded.  For the
    reference [file("a.bin").slice(9007199254740991)] and
    [a, b, c, d = 2, 3, 3, 3], slicing twice gives the range
    [{ begin: 9007199254740992, end: 9007199254740992 }] and slicing once
    the range [{ begin: 9007199254740994, end: 9007199254740994 }]. *)
Lemma slice_not_associative_past_safe_range :
  (2 <= 3 /\ 3 <= 3 /\ 3 <= 3)
  /\ range_ (slice None (slice None far_file (ArgNumber 2) (ArgNumber 3) None)
               (ArgNumber (js_sub 3 2)) (ArgNumber (js_sub 3 2)) None)
     = Some (mkRange (Present 9007199254740992) (Present 9007199254740992))
  /\ range_ (slice None far_file (ArgNumber 3) (ArgNumber 3) None)
     = Some (mkRange (Present 9007199254740994) (Present 9007199254740994))
  /\ range_ (slice None (slice None far_file (ArgNumber 2) (ArgNumber 3) None)
               (ArgNumber (js_sub 3 2)) (ArgNumber (js_sub 3 2)) None)
     <> range_ (slice None far_file (ArgNumber 3) (ArgNumber 3) None).
Proof.
  split; [lia |].
  refine (conj _ (conj _ _)); try (vm_compute; reflexivity).
  intro H. vm_compute in H. discriminate H.
Qed.

(** The witness of C1 as amended at [a, b, c, d = 1, 2, 3, 4] over a
    reference whose window is [10, 12). *)
Lemma slice_associative_witness :
  (1 <= 2 /\ 2 <= 3 /\ 3 <= 4)
  /\ range_ (slice None (slice None windowed_file (ArgNumber 1) (ArgNumber 4) None)
               (ArgNumber (js_sub 2 1)) (ArgNumber (js_sub 3 1)) None)
     = range_ (slice None windowed_file (ArgNumber 2) (ArgNumber 3) None).
Proof.
  split; [lia |].
  apply (slice_associative None windowed_file 1 2 3 4 None None None);
    try lia; unfold safe; cbn; lia.
Defined.

(** The claim C8 as stated fails: [file("a.bin").slice(5, 3)] is reachable
    and its range is [{ begin: 5, end: 3 }]. *)
Lemma range_invariant_broken_by_slice :
  reachable None inverted_file
  /\ range_ inverted_file = Some (mkRange (Present 5) (Present 3))
  /\ range_ok (range_ inverted_file) = false.
Proof.
  split; [| split; reflexivity].
  unfold inverted_file. apply reach_slice. apply reach_file.
Qed.

(** The witness of C8 as amended: [file("a.bin").slice(2, 9).slice(1, 4)]
    stays in the window and has the range [{ begin: 3, end: 6 }]. *)
Lemma range_invariant_in_window_witness :
  reachable_in_window None nested_file
  /\ range_ok (range_ nested_file) = true.
Proof.
  assert (H : reachable_in_window None nested_file).
  { unfold nested_file.
    apply window_slice; [apply window_slice; [apply window_file |] |];
      reflexivity. }
  split; [exact H |].
  exact (range_invariant_in_window None nested_file H).
Defined.

(** * Reading and probing *)

Section ReaderEffects.

Variable w : World.

(** A slice of a constructed reference has its client and its bucket. *)
Lemma slice_client (env : option string) (path : string)
  (options : option R2Options) (range : option Range) (a1 a2 : SliceArg)
  (ct : option string) :
  client_ (slice env (new_R2FileReader env path options range) a1 a2 ct)
  = client_ (new_R2FileReader env path options range).
Proof.
  unfold slice. destruct (slice_parse a1 a2 ct) as [[b e] t].
  destruct options; reflexivity.
Qed.

Lemma slice_bucket (env : option string) (path : string)
  (options : option R2Options) (range : option Range) (a1 a2 : SliceArg)
  (ct : option string) :
  bucket_ (slice env (new_R2FileReader env path options range) a1 a2 ct)
  = bucket_ (new_R2FileReader env path options range).
Proof.
  unfold slice. destruct (slice_parse a1 a2 ct) as [[b e] t].
  destruct options; reflexivity.
Qed.

(** The read operations look at the name, the bucket and the client of a
    reference, and at nothing else. *)
Lemma reads_depend_on_target (R S : R2FileReader) :
  name S = name R -> bucket_ S = bucket_ R -> client_ S = client_ R ->
  stream w S = stream w R
  /\ arrayBuffer w S = arrayBuffer w R
  /\ text w S = text w R
  /\ json w S = json w R
  /\ bytes w S = bytes w R.
Proof.
  intros Hn Hb Hc.
  unfold stream, arrayBuffer, json, text, bytes.
  rewrite Hn, Hb, Hc. repeat split.
Qed.

(** Each read operation sends one command, the GET of bucket and key. *)
Lemma reads_send_one_get (R : R2FileReader) :
  fst (stream w R) = [read_call R]
  /\ calls (arrayBuffer w R) = [read_call R]
  /\ calls (text w R) = [read_call R]
  /\ calls (json w R) = [read_call R]
  /\ calls (bytes w R) = [read_call R].
Proof.
  unfold stream, arrayBuffer, json, text, bytes, send_get, calls, read_call.
  cbn.
  destruct (s3_get w (client_ R) (mkGet (bucket_ R) (name R) None))
    as [response | e]; cbn; [| repeat split].
  destruct (out_Body response) as [body |]; cbn; [| repeat split].
  unfold transformToString.
  destruct (transformToByteArray body) as [b | e]; cbn; repeat split.
Qed.

(** C9: every read operation ([stream], [arrayBuffer], [text], [bytes], and
    [json] through [text]) of a reference sends one GET that carries the
    bucket and the key and no byte range, whatever range the reference
    stores; so what is read from [slice(R, ...)] is what is read from [R],
    the whole object. *)
Theorem reads_ignore_range (path : string) (options : option R2Options)
  (range : option Range) (a1 a2 : SliceArg) (ct : option string) :
  let R := new_R2FileReader (env_R2_ENDPOINT w) path options range in
  let S := slice (env_R2_ENDPOINT w) R a1 a2 ct in
  let get_object :=
    Sent (createClient (env_R2_ENDPOINT w) options)
      (GetObjectCommand
         {| get_Bucket := nullish (opt_read opt_bucket options) "";
            get_Key := path;
            get_Range := None |}) in
  (fst (stream w S) = [get_object]
   /\ calls (arrayBuffer w S) = [get_object]
   /\ calls (text w S) = [get_object]
   /\ calls (json w S) = [get_object]
   /\ calls (bytes w S) = [get_object])
  /\ (stream w S = stream w R
      /\ arrayBuffer w S = arrayBuffer w R
      /\ text w S = text w R
      /\ json w S = json w R
      /\ bytes w S = bytes w R).
Proof.
  intros R S get_object.
  assert (Hn : name S = name R) by apply slice_name.
  assert (Hb : bucket_ S = bucket_ R) by apply slice_bucket.
  assert (Hc : client_ S = client_ R) by apply slice_client.
  split; [| apply reads_depend_on_target; assumption].
  replace get_object with (read_call S).
  - apply reads_send_one_get.
  - unfold read_call. rewrite Hn, Hb, Hc. reflexivity.
Qed.

(** The test of the [catch] clause of [exists] recognizes the instances of
    [Error] named NotFound or NoSuchKey. *)
Lemma is_not_found_spec (e : JsThrown) :
  is_not_found e = true <->
  thrown_is_Error e = true
  /\ (thrown_name e = Some "NotFound" \/ thrown_name e = Some "NoSuchKey").
Proof.
  unfold is_not_found. split.
  - intro H. apply andb_prop in H. destruct H as [He Hn]. split; [exact He |].
    destruct (thrown_name e) as [n |]; [| discriminate].
    apply orb_prop in Hn. destruct Hn as [Hn | Hn];
      apply String.eqb_eq in Hn; subst n; auto.
  - intros [He [Hn | Hn]]; rewrite He, Hn; reflexivity.
Qed.

(** A probe: the HEAD command and the three ways [exists] ends. *)
Lemma probe_outcome (c : S3ClientConfig) (i : HeadObjectInput) :
  let exists_probe :=
    try_catch (_ <- send_head w c i ;; ret true)
      (fun error => if is_not_found error then ret false else throw error) in
  calls exists_probe = [Sent c (HeadObjectCommand i)]
  /\ (forall r, s3_head w c i = Ok r -> outcome exists_probe = Ok true)
  /\ (forall e, s3_head w c i = Throw e -> is_not_found e = true ->
      outcome exists_probe = Ok false)
  /\ (forall e, s3_head w c i = Throw e -> is_not_found e = false ->
      outcome exists_probe = Throw e).
Proof.
  cbv zeta. unfold send_head, calls, outcome. cbn.
  destruct (s3_head w c i) as [r | e]; cbn.
  - repeat split; intros; congruence.
  - destruct (is_not_found e) eqn:Hnf; cbn; repeat split; intros;
      congruence.
Qed.

(** [stat] lets every failure of its HEAD through, after logging it. *)
Lemma stat_propagates (self : R2FileReader) (e : JsThrown) :
  s3_head w (client_ self) (mkHead (bucket_ self) (name self)) = Throw e ->
  outcome (stat w self) = Throw e.
Proof.
  intro H. unfold stat, send_head, outcome. cbn. rewrite H. reflexivity.
Qed.

Lemma delete_propagates (self : R2FileReader) (e : JsThrown) :
  s3_delete w (client_ self) (mkDelete (bucket_ self) (name self)) = Throw e ->
  outcome (delete w self) = Throw e.
Proof.
  intro H. unfold delete, send_delete, outcome. cbn. rewrite H. reflexivity.
Qed.

(** A failed GET fails the materializing reads and errors the stream. *)
Lemma reads_propagate (self : R2FileReader) (e : JsThrown) :
  s3_get w (client_ self) (mkGet (bucket_ self) (name self) None) = Throw e ->
  outcome (text w self) = Throw e
  /\ outcome (json w self) = Throw e
  /\ outcome (arrayBuffer w self) = Throw e
  /\ outcome (bytes w self) = Throw e
  /\ snd (stream w self) = mkStream [] (Errored e).
Proof.
  intro H.
  unfold text, json, arrayBuffer, bytes, stream, text, send_get, outcome.
  cbn. rewrite H. repeat split.
Qed.

Lemma write_propagates (self : R2FileReader) (data : WriteData)
  (options : option R2Options) (body : Bytes) (contentType : option string)
  (e : JsThrown) :
  write_body w data
    (nullish_opt (opt_read opt_type options) (get (opt_type (options_ self))))
  = ([], Ok (body, contentType)) ->
  s3_put w (client_ self)
    {| put_Bucket := bucket_ self;
       put_Key := name self;
       put_Body := Some body;
       put_ContentType := contentType;
       put_ACL := opt_read opt_acl options;
       put_StorageClass := opt_read opt_storageClass options |} = Throw e ->
  outcome (write w self data options) = Throw e.
Proof.
  intros Hb Hp. unfold write, send_put, outcome. rewrite Hb. cbn.
  rewrite Hp. reflexivity.
Qed.

Lemma list_propagates (input : option R2ListObjectsOptions)
  (options : option R2Options) (e : JsThrown) :
  (s3_list w (createClient (env_R2_ENDPOINT w) options)
     (lib_list_input input options) = Throw e ->
   outcome (lib_list w input options) = Throw e)
  /\ (s3_list w (createClient (env_R2_ENDPOINT w) options)
        (Client_list_input options) = Throw e ->
      outcome (Client_static_list w input options) = Throw e).
Proof.
  unfold lib_list, Client_static_list, send_list, outcome,
    lib_list_input, Client_list_input. cbn.
  split; intro H; rewrite H; reflexivity.
Qed.

Lemma presign_propagates (self : R2FileReader)
  (options : option R2FilePresignOptions) (e : JsThrown) :
  (forall cmd n, getSignedUrl w (client_ self) cmd n = Throw e) ->
  recognized_method (presign_method options) = true ->
  outcome (presign w self options) = Throw e.
Proof.
  intros H Hm. unfold presign, presign_command, sign, outcome.
  unfold recognized_method in Hm.
  by_method (presign_method options) ltac:(cbn; rewrite H; reflexivity).
  discriminate.
Qed.

(** C2: [exists()] returns [true] when the metadata probe succeeds,
    [false] when the probe fails with an error (an instance of [Error])
    whose name is NotFound or NoSuchKey, and throws again every other
    thrown value, on the reference and on [BlobClient] alike; no other
    operation turns a failure into a boolean: [stat], [delete], the reads,
    [write], the two listings and [presign] fail with the error they
    received, not-found errors included, and [stream] signals it on the
    stream. *)
Theorem exists_alone_maps_not_found_to_false (self : R2FileReader)
  (client : BlobClient) (path : string) :
  let probe := s3_head w (client_ self) (mkHead (bucket_ self) (name self)) in
  let blob_probe :=
    s3_head w (blob_client client)
      (mkHead (bo_bucket (blob_options client)) path) in
  let not_found (e : JsThrown) :=
    thrown_is_Error e = true
    /\ (thrown_name e = Some "NotFound" \/ thrown_name e = Some "NoSuchKey") in
  ((forall r, probe = Ok r -> outcome (exists_ w self) = Ok true)
   /\ (forall e, probe = Throw e -> not_found e ->
       outcome (exists_ w self) = Ok false)
   /\ (forall e, probe = Throw e -> ~ not_found e ->
       outcome (exists_ w self) = Throw e))
  /\ ((forall r, blob_probe = Ok r ->
       outcome (BlobClient_exists w client path) = Ok true)
      /\ (forall e, blob_probe = Throw e -> not_found e ->
          outcome (BlobClient_exists w client path) = Ok false)
      /\ (forall e, blob_probe = Throw e -> ~ not_found e ->
          outcome (BlobClient_exists w client path) = Throw e))
  /\ (forall e, probe = Throw e -> outcome (stat w self) = Throw e)
  /\ (forall e,
        s3_delete w (client_ self) (mkDelete (bucket_ self) (name self))
        = Throw e ->
        outcome (delete w self) = Throw e)
  /\ (forall e,
        s3_get w (client_ self) (mkGet (bucket_ self) (name self) None)
        = Throw e ->
        outcome (text w self) = Throw e
        /\ outcome (json w self) = Throw e
        /\ outcome (arrayBuffer w self) = Throw e
        /\ outcome (bytes w self) = Throw e
        /\ snd (stream w self) = mkStream [] (Errored e))
  /\ (forall data options body contentType e,
        write_body w data
          (nullish_opt (opt_read opt_type options)
             (get (opt_type (options_ self))))
        = ([], Ok (body, contentType)) ->
        s3_put w (client_ self)
          {| put_Bucket := bucket_ self;
             put_Key := name self;
             put_Body := Some body;
             put_ContentType := contentType;
             put_ACL := opt_read opt_acl options;
             put_StorageClass := opt_read opt_storageClass options |}
        = Throw e ->
        outcome (write w self data options) = Throw e)
  /\ (forall input options e,
        s3_list w (createClient (env_R2_ENDPOINT w) options)
          (lib_list_input input options) = Throw e ->
        outcome (lib_list w input options) = Throw e)
  /\ (forall input options e,
        s3_list w (createClient (env_R2_ENDPOINT w) options)
          (Client_list_input options) = Throw e ->
        outcome (Client_static_list w input options) = Throw e)
  /\ (forall options e,
        (forall cmd n, getSignedUrl w (client_ self) cmd n = Throw e) ->
        recognized_method (presign_method options) = true ->
        outcome (presign w self options) = Throw e).
Proof.
  intros probe blob_probe not_found.
  assert (Hrethrow : forall e, ~ not_found e -> is_not_found e = false).
  { intros e Hn. destruct (is_not_found e) eqn:E; [| reflexivity].
    exfalso. apply Hn. apply is_not_found_spec. exact E. }
  destruct (probe_outcome (client_ self) (mkHead (bucket_ self) (name self)))
    as (_ & Hok & Hnf & Hre).
  destruct (probe_outcome (blob_client client)
              (mkHead (bo_bucket (blob_options client)) path))
    as (_ & Bok & Bnf & Bre).
  split; [| split; [| repeat split]].
  - repeat split.
    + exact Hok.
    + intros e He Hn. apply (Hnf e He). apply is_not_found_spec, Hn.
    + intros e He Hn. apply (Hre e He). apply Hrethrow, Hn.
  - repeat split.
    + exact Bok.
    + intros e He Hn. apply (Bnf e He). apply is_not_found_spec, Hn.
    + intros e He Hn. apply (Bre e He). apply Hrethrow, Hn.
  - apply stat_propagates.
  - apply delete_propagates.
  - apply reads_propagate; assumption.
  - apply reads_propagate; assumption.
  - apply reads_propagate; assumption.
  - apply reads_propagate; assumption.
  - apply reads_propagate; assumption.
  - apply write_propagates.
  - intros input options e.
    apply (proj1 (list_propagates input options e)).
  - intros input options e.
    apply (proj2 (list_propagates input options e)).
  - apply presign_propagates.
Qed.

End ReaderEffects.

(** The witness of C2 in the sample world: [greeting.txt] exists,
    [missing.txt] and [gone.txt] do not, the probe of [secret.txt] is
    refused and the refusal is thrown again; [stat] and [text] of an
    absent object fail with the not-found error itself. *)
Lemma exists_alone_maps_not_found_to_false_witness :
  outcome (exists_ sample_world (sample_file "greeting.txt")) = Ok true
  /\ outcome (exists_ sample_world (sample_file "missing.txt")) = Ok false
  /\ outcome (exists_ sample_world (sample_file "gone.txt")) = Ok false
  /\ outcome (exists_ sample_world (sample_file "secret.txt"))
     = Throw access_denied_error
  /\ outcome (BlobClient_exists sample_world sample_blob_client "gone.txt")
     = Ok false
  /\ outcome (stat sample_world (sample_file "missing.txt"))
     = Throw not_found_error
  /\ outcome (text sample_world (sample_file "missing.txt"))
     = Throw no_such_key_error.
Proof.
  pose proof (exists_alone_maps_not_found_to_false sample_world
                (sample_file "greeting.txt") sample_blob_client "gone.txt")
    as ((Hok & _) & (_ & Bnf & _) & _).
  pose proof (exists_alone_maps_not_found_to_false sample_world
                (sample_file "missing.txt") sample_blob_client "gone.txt")
    as ((_ & Hnf & _) & _ & Hstat & _ & Hget & _).
  pose proof (exists_alone_maps_not_found_to_false sample_world
                (sample_file "gone.txt") sample_blob_client "gone.txt")
    as ((_ & Hgone & _) & _).
  pose proof (exists_alone_maps_not_found_to_false sample_world
                (sample_file "secret.txt") sample_blob_client "gone.txt")
    as ((_ & _ & Hre) & _).
  refine (conj _ (conj _ (conj _ (conj _ (conj _ (conj _ _)))))).
  - eapply Hok. reflexivity.
  - eapply Hnf; [reflexivity | split; [reflexivity | left; reflexivity]].
  - eapply Hgone; [reflexivity | split; [reflexivity | right; reflexivity]].
  - eapply Hre; [reflexivity |]. intros [_ [H | H]]; discriminate H.
  - eapply Bnf; [reflexivity | split; [reflexivity | right; reflexivity]].
  - eapply Hstat. reflexivity.
  - eapply Hget. reflexivity.
Defined.

(** * Listing *)

Section Listing.

Variable w : World.

Lemma defined_if_truthy (x : option string) :
  defined_member (if_truthy x) = true.
Proof.
  destruct x as [s |]; cbn; [destruct (truthy_string s) |]; reflexivity.
Qed.

Lemma defined_if_defined {A} (x : option A) :
  defined_member (if_defined x) = true.
Proof.
  destruct x; reflexivity.
Qed.

Lemma source_if_truthy (x : option string) :
  implb (own (if_truthy x)) (is_some x) = true.
Proof.
  destruct x as [s |]; cbn; [destruct (truthy_string s) |]; reflexivity.
Qed.

Lemma source_if_defined {A} (x : option A) :
  implb (own (if_defined x)) (is_some x) = true.
Proof.
  destruct x; reflexivity.
Qed.

Lemma forallb_map_true {A B} (p : B -> bool) (f : A -> B) (l : list A) :
  (forall a, p (f a) = true) -> forallb p (map f l) = true.
Proof.
  intro H. induction l as [| a l IH]; cbn; [reflexivity |].
  rewrite H, IH. reflexivity.
Qed.

(** The direct members of a content entry are omitted or defined, and the
    optional ones come from a source field. *)
Lemma list_content_members (c : RawObject) :
  sparse_content_members (list_content w c) = true
  /\ content_from_source c (list_content w c) = true.
Proof.
  unfold sparse_content_members, content_from_source, list_content; cbn.
  rewrite !defined_if_truthy, !defined_if_defined, !source_if_defined.
  rewrite source_if_truthy.
  destruct (raw_ChecksumAlgorithm c) as [[| a l] |]; cbn;
    try destruct (truthy_string a);
    destruct (raw_LastModified c), (raw_Owner c), (raw_RestoreStatus c),
      (raw_StorageClass c); split; reflexivity.
Qed.

(** The members of the response are omitted or defined, not looking into
    the nested records of the content entries. *)
Lemma list_response_members (response : ListObjectsV2Output) :
  sparse_response_members (list_response w response) = true.
Proof.
  unfold sparse_response_members, sparse_response_with, list_response; cbn.
  rewrite !defined_if_truthy, !defined_if_defined. cbn.
  destruct (out_CommonPrefixes response) as [ps |]; cbn.
  - rewrite forallb_map_true by reflexivity. cbn.
    destruct (out_Contents response) as [cs |]; cbn; [| reflexivity].
    apply forallb_map_true. intro c. apply list_content_members.
  - destruct (out_Contents response) as [cs |]; cbn; [| reflexivity].
    apply forallb_map_true. intro c. apply list_content_members.
Qed.

Lemma list_response_from_source (response : ListObjectsV2Output) :
  response_from_source response (list_response w response) = true.
Proof.
  unfold response_from_source, list_response; cbn.
  rewrite !source_if_truthy, !source_if_defined.
  destruct (out_CommonPrefixes response), (out_Contents response);
    reflexivity.
Qed.

(** The two listings return the mapping of what the service answered. *)
Lemma listings_return_list_response (input : option R2ListObjectsOptions)
  (options : option R2Options) (response : ListObjectsV2Output) :
  (s3_list w (createClient (env_R2_ENDPOINT w) options)
     (lib_list_input input options) = Ok response ->
   outcome (lib_list w input options) = Ok (list_response w response))
  /\ (s3_list w (createClient (env_R2_ENDPOINT w) options)
        (Client_list_input options) = Ok response ->
      outcome (Client_static_list w input options)
      = Ok (list_response w response)).
Proof.
  unfold lib_list, Client_static_list, send_list, outcome,
    lib_list_input, Client_list_input. cbn.
  split; intro H; rewrite H; reflexivity.
Qed.

(** C3, as amended: in the normalized ListResponse every member of the
    response and every direct member of a content entry is omitted or
    holds a defined value; [key], [eTag] and the [prefix] of a common
    prefix are always present (the empty string stands for an absent
    source field), every other such member is present only when its
    source field was.  The nested records do not follow the rule: a
    present [owner] always has both [id] and [displayName], a present
    [restoreStatus] always has both [isRestoreInProgress] and
    [restoreExpiryDate], each holding [undefined] when the source field
    was absent.  A response with zero matching objects yields [contents]
    and [commonPrefixes] omitted or empty. *)
Theorem list_response_sparse_except_nested (response : ListObjectsV2Output) :
  let r := list_response w response in
  sparse_response_members r = true
  /\ response_from_source response r = true
  /\ (forall c,
        sparse_content_members (list_content w c) = true
        /\ content_from_source c (list_content w c) = true
        /\ c_key (list_content w c) = Present (nullish (raw_Key c) "")
        /\ c_eTag (list_content w c) = Present (nullish (raw_ETag c) ""))
  /\ (forall c o,
        raw_Owner c = Some o ->
        c_owner (list_content w c)
        = Present {| owner_id := assign (raw_ID o);
                     owner_displayName := assign (raw_DisplayName o) |})
  /\ (forall c s,
        raw_RestoreStatus c = Some s ->
        c_restoreStatus (list_content w c)
        = Present
            {| rs_isRestoreInProgress := assign (raw_IsRestoreInProgress s);
               rs_restoreExpiryDate :=
                 assign (option_map (toISOString w) (raw_RestoreExpiryDate s)) |})
  /\ (out_Contents response = None -> r_contents r = Absent)
  /\ (out_Contents response = Some [] -> r_contents r = Present [])
  /\ (out_CommonPrefixes response = None -> r_commonPrefixes r = Absent)
  /\ (out_CommonPrefixes response = Some [] -> r_commonPrefixes r = Present [])
  /\ (forall input options,
        s3_list w (createClient (env_R2_ENDPOINT w) options)
          (lib_list_input input options) = Ok response ->
        outcome (lib_list w input options) = Ok r)
  /\ (forall input options,
        s3_list w (createClient (env_R2_ENDPOINT w) options)
          (Client_list_input options) = Ok response ->
        outcome (Client_static_list w input options) = Ok r)
  /\ (forall ps,
        out_CommonPrefixes response = Some ps ->
        r_commonPrefixes r
        = Present (map (fun p => mkPrefix (Present (nullish (raw_Prefix p) "")))
                     ps)).
Proof.
  intro r.
  refine (conj _ (conj _ (conj _ (conj _ (conj _ (conj _ (conj _
           (conj _ (conj _ (conj _ (conj _ _))))))))))).
  - apply list_response_members.
  - apply list_response_from_source.
  - intro c. destruct (list_content_members c) as [Hs Hf].
    refine (conj Hs (conj Hf (conj _ _))); reflexivity.
  - intros c o H. unfold list_content; cbn. rewrite H. reflexivity.
  - intros c s H. unfold list_content; cbn. rewrite H.
    destruct (raw_RestoreExpiryDate s); reflexivity.
  - intro H. unfold r, list_response; cbn. rewrite H. reflexivity.
  - intro H. unfold r, list_response; cbn. rewrite H. reflexivity.
  - intro H. unfold r, list_response; cbn. rewrite H. reflexivity.
  - intro H. unfold r, list_response; cbn. rewrite H. reflexivity.
  - intros input options H.
    apply (proj1 (listings_return_list_response input options response) H).
  - intros input options H.
    apply (proj2 (listings_return_list_response input options response) H).
  - intros ps H. unfold r, list_response; cbn. rewrite H. reflexivity.
Qed.

(** The standalone [list] sends one command that carries the bucket and
    every filter of its input. *)
Lemma lib_list_passes_filters (input : R2ListObjectsOptions)
  (options : option R2Options) :
  calls (lib_list w (Some input) options)
  = [Sent (createClient (env_R2_ENDPOINT w) options)
       (ListObjectsV2Command
          {| list_Bucket := opt_read opt_bucket options;
             list_Prefix := in_prefix input;
             list_ContinuationToken := in_continuationToken input;
             list_Delimiter := in_delimiter input;
             list_MaxKeys := in_maxKeys input;
             list_FetchOwner := in_fetchOwner input;
             list_EncodingType := in_encodingType input;
             list_StartAfter := in_startAfter input |})].
Proof.
  unfold lib_list, send_list, calls. cbn.
  destruct (s3_list w _ _); reflexivity.
Qed.

(** The static [Client.list] sends the same command whatever its input. *)
Lemma Client_list_ignores_input (input : option R2ListObjectsOptions)
  (options : option R2Options) :
  Client_static_list w input options = Client_static_list w None options.
Proof.
  reflexivity.
Qed.

(** C4 at the input of the documentation of [Client.list],
    [{ prefix: "uploads/", maxKeys: 500, fetchOwner: true }]: the static
    and the instance [Client.list] send a listing command that carries the
    bucket and none of the filters, where the standalone [list] sends the
    prefix, the key limit and the owner flag. *)
Theorem Client_list_drops_filters :
  let bucket_only :=
    Sent (createClient (env_R2_ENDPOINT w) (Some sample_options))
      (ListObjectsV2Command
         (mkList (Some "my-bucket") None None None None None None None)) in
  let filtered :=
    Sent (createClient (env_R2_ENDPOINT w) (Some sample_options))
      (ListObjectsV2Command
         (mkList (Some "my-bucket") (Some "uploads/") None None (Some 500)
            (Some true) None None)) in
  calls (Client_static_list w (Some uploads_input) (Some sample_options))
  = [bucket_only]
  /\ calls (Client_list w (mkClient (Some sample_options))
             (Some uploads_input) None)
     = [bucket_only]
  /\ calls (lib_list w (Some uploads_input) (Some sample_options)) = [filtered]
  /\ bucket_only <> filtered.
Proof.
  cbv zeta.
  refine (conj _ (conj _ (conj _ _))).
  - unfold Client_static_list, send_list, calls. cbn.
    destruct (s3_list w _ _); reflexivity.
  - unfold Client_list, Client_static_list, send_list, calls. cbn.
    destruct (s3_list w _ _); reflexivity.
  - apply lib_list_passes_filters.
  - intro H. discriminate H.
Qed.

End Listing.

(** The claim C3 as stated fails: listing [owned/] in the sample world
    returns an entry whose [owner] is present with [id] and [displayName]
    both holding [undefined]. *)
Lemma list_owner_members_undefined :
  outcome (lib_list sample_world (Some owned_input) (Some sample_options))
  = Ok (list_response sample_world anonymous_listing)
  /\ option_map c_owner
       (option_map (list_content sample_world)
          (head (nullish (out_Contents anonymous_listing) [])))
     = Some (Present (mkOwner Undefined Undefined))
  /\ sparse_response (list_response sample_world anonymous_listing) = false.
Proof.
  refine (conj _ (conj _ _)); reflexivity.
Qed.

(** The witness of C3 as amended, on the same listing. *)
Lemma list_response_sparse_except_nested_witness :
  sparse_response_members (list_response sample_world anonymous_listing) = true
  /\ c_owner (list_content sample_world anonymous_entry)
     = Present (mkOwner Undefined Undefined)
  /\ r_contents (list_response sample_world empty_listing) = Absent
  /\ outcome (lib_list sample_world None (Some sample_options))
     = Ok (list_response sample_world empty_listing).
Proof.
  pose proof (list_response_sparse_except_nested sample_world anonymous_listing)
    as (Hs & _ & _ & Ho & _).
  pose proof (list_response_sparse_except_nested sample_world empty_listing)
    as (_ & _ & _ & _ & _ & He & _ & _ & _ & Hl & _).
  refine (conj Hs (conj _ (conj _ _))).
  - apply (Ho anonymous_entry (mkRawOwner None None)). reflexivity.
  - apply He. reflexivity.
  - apply (Hl None (Some sample_options)). reflexivity.
Defined.

(** * Presigning *)

Section Presigning.

Variable w : World.

(** A method that is present and not empty is the one [presign] switches
    on. *)
Lemma presign_method_given (options : R2FilePresignOptions) (m : string) :
  pre_method options = Some m -> m <> "" ->
  presign_method (Some options) = m.
Proof.
  intros H Hm. unfold presign_method, or_default, truthy_string. rewrite H.
  destruct (String.eqb_spec m ""); [contradiction | reflexivity].
Qed.

(** An absent or empty method is read as GET. *)
Lemma presign_method_default (options : option R2FilePresignOptions) :
  match options with
  | Some o => pre_method o = None \/ pre_method o = Some ""
  | None => True
  end ->
  presign_method options = "GET".
Proof.
  destruct options as [o |]; [| reflexivity].
  unfold presign_method. intros [H | H]; rewrite H; reflexivity.
Qed.

(** The command [presign] signs for each recognized method, and its
    failure for any other. *)
Lemma presign_command_cases (self : R2FileReader)
  (options : option R2FilePresignOptions) (m : string) :
  (m = "GET" ->
   presign_command self options m
   = ret (GetObjectCommand (mkGet (bucket_ self) (name self) None)))
  /\ (m = "HEAD" ->
      presign_command self options m
      = ret (HeadObjectCommand (mkHead (bucket_ self) (name self))))
  /\ (m = "DELETE" ->
      presign_command self options m
      = ret (DeleteObjectCommand (mkDelete (bucket_ self) (name self))))
  /\ (m = "PUT" ->
      presign_command self options m
      = ret (PutObjectCommand
               {| put_Bucket := bucket_ self;
                  put_Key := name self;
                  put_Body := None;
                  put_ContentType :=
                    nullish_opt
                      (opt_read opt_type (option_map pre_options options))
                      (get (opt_type (options_ self)));
                  put_ACL := opt_read opt_acl (option_map pre_options options);
                  put_StorageClass := None |}))
  /\ (recognized_method m = false ->
      presign_command self options m
      = throw (new_Error ("Unsupported method: " ++ m))).
Proof.
  refine (conj _ (conj _ (conj _ (conj _ _)))); try (intros ->; reflexivity).
  unfold recognized_method, presign_command. intro H.
  by_method m ltac:(discriminate). reflexivity.
Qed.

(** What [presign] does once its method and command are known. *)
Lemma presign_signs (self : R2FileReader)
  (options : option R2FilePresignOptions) (cmd : Command) :
  presign_command self options (presign_method options) = ret cmd ->
  calls (presign w self options)
  = [Signed (client_ self) cmd
       (or_number (match options with
                   | Some o => pre_expiresIn o
                   | None => None
                   end) 900)].
Proof.
  intro H. unfold presign. rewrite H. unfold sign, calls. reflexivity.
Qed.

Lemma presign_fails (self : R2FileReader)
  (options : option R2FilePresignOptions) (e : JsThrown) :
  presign_command self options (presign_method options) = throw e ->
  presign w self options = ([], Throw e).
Proof.
  intro H. unfold presign. rewrite H. reflexivity.
Qed.

(** The command [BlobClient.presigned] signs: the one of the method, and
    the GET for any method its switch does not list. *)
Lemma presigned_command_cases (client : BlobClient) (path m : string) :
  let bucket := bo_bucket (blob_options client) in
  (m = "GET" ->
   presigned_command client path m = GetObjectCommand (mkGet bucket path None))
  /\ (m = "HEAD" ->
      presigned_command client path m = HeadObjectCommand (mkHead bucket path))
  /\ (m = "DELETE" ->
      presigned_command client path m
      = DeleteObjectCommand (mkDelete bucket path))
  /\ (m = "PUT" ->
      presigned_command client path m
      = PutObjectCommand (mkPut bucket path None None None None))
  /\ (recognized_method m = false ->
      presigned_command client path m
      = GetObjectCommand (mkGet bucket path None)).
Proof.
  cbv zeta.
  refine (conj _ (conj _ (conj _ (conj _ _)))); try (intros ->; reflexivity).
  unfold recognized_method, presigned_command. intro H.
  by_method m ltac:(discriminate). reflexivity.
Qed.

(** A recognized method always yields a command to sign. *)
Lemma presign_command_recognized (self : R2FileReader)
  (options : option R2FilePresignOptions) (m : string) :
  recognized_method m = true ->
  exists cmd, presign_command self options m = ret cmd.
Proof.
  unfold recognized_method, presign_command. intro H.
  by_method m ltac:(eexists; reflexivity). discriminate.
Qed.

Lemma presign_expiry (self : R2FileReader)
  (options : option R2FilePresignOptions) :
  recognized_method (presign_method options) = true ->
  signed_expiries (calls (presign w self options))
  = [or_number (match options with
                | Some o => pre_expiresIn o
                | None => None
                end) 900].
Proof.
  intro H.
  destruct (presign_command_recognized self options _ H) as [cmd Hc].
  rewrite (presign_signs self options cmd Hc). reflexivity.
Qed.

(** C5, as amended: on the per-object path ([R2FileReader.presign], and
    [Client.presign] of an instance or static, which call it) a method that
    is present, not empty and not one of GET, HEAD, PUT, DELETE fails with
    the error "Unsupported method: m" and nothing is signed; on the
    client-level path ([BlobClient.presigned]) such a method signs the GET
    command instead.  On both paths GET signs the read command and HEAD
    the metadata command, with bucket and key alone, DELETE signs the
    delete command, and an absent method is read as GET (an empty one too
    on the per-object path); PUT signs a write command with no body, which
    carries the content type and the access-control-list tag when supplied
    on the per-object path and bucket and key alone on the client-level
    path. *)
Theorem presign_by_method (self : R2FileReader) (facade : Client)
  (client : BlobClient) (path : string) (options : R2FilePresignOptions)
  (blob_opts : PresignOptions) (m : string) :
  let expiry := or_number (pre_expiresIn options) 900 in
  let blob_expiry := nullish (ps_expiresIn blob_opts) 3600 in
  let bucket := bo_bucket (blob_options client) in
  let unsupported : M string :=
    ([], Throw (new_Error ("Unsupported method: " ++ m))) in
  (pre_method options = Some m -> m <> "" -> recognized_method m = false ->
   presign w self (Some options) = unsupported
   /\ Client_presign w facade path (Some options) = unsupported
   /\ Client_static_presign w path (Some options) = unsupported)
  /\ (ps_method blob_opts = Some m -> recognized_method m = false ->
      calls (BlobClient_presigned w client path (Some blob_opts))
      = [Signed (blob_client client)
           (GetObjectCommand (mkGet bucket path None)) blob_expiry])
  /\ (pre_method options = Some "GET" \/ pre_method options = None
      \/ pre_method options = Some "" ->
      calls (presign w self (Some options))
      = [Signed (client_ self)
           (GetObjectCommand (mkGet (bucket_ self) (name self) None)) expiry])
  /\ calls (presign w self None)
     = [Signed (client_ self)
          (GetObjectCommand (mkGet (bucket_ self) (name self) None)) 900]
  /\ (pre_method options = Some "HEAD" ->
      calls (presign w self (Some options))
      = [Signed (client_ self)
           (HeadObjectCommand (mkHead (bucket_ self) (name self))) expiry])
  /\ (pre_method options = Some "PUT" ->
      calls (presign w self (Some options))
      = [Signed (client_ self)
           (PutObjectCommand
              {| put_Bucket := bucket_ self;
                 put_Key := name self;
                 put_Body := None;
                 put_ContentType :=
                   nullish_opt (get (opt_type (pre_options options)))
                     (get (opt_type (options_ self)));
                 put_ACL := get (opt_acl (pre_options options));
                 put_StorageClass := None |}) expiry])
  /\ (pre_method options = Some "DELETE" ->
      calls (presign w self (Some options))
      = [Signed (client_ self)
           (DeleteObjectCommand (mkDelete (bucket_ self) (name self))) expiry])
  /\ (ps_method blob_opts = Some "GET" \/ ps_method blob_opts = None ->
      calls (BlobClient_presigned w client path (Some blob_opts))
      = [Signed (blob_client client)
           (GetObjectCommand (mkGet bucket path None)) blob_expiry])
  /\ calls (BlobClient_presigned w client path None)
     = [Signed (blob_client client)
          (GetObjectCommand (mkGet bucket path None)) 3600]
  /\ (ps_method blob_opts = Some "HEAD" ->
      calls (BlobClient_presigned w client path (Some blob_opts))
      = [Signed (blob_client client)
           (HeadObjectCommand (mkHead bucket path)) blob_expiry])
  /\ (ps_method blob_opts = Some "PUT" ->
      calls (BlobClient_presigned w client path (Some blob_opts))
      = [Signed (blob_client client)
           (PutObjectCommand (mkPut bucket path None None None None))
           blob_expiry])
  /\ (ps_method blob_opts = Some "DELETE" ->
      calls (BlobClient_presigned w client path (Some blob_opts))
      = [Signed (blob_client client)
           (DeleteObjectCommand (mkDelete bucket path)) blob_expiry]).
Proof.
  intros expiry blob_expiry bucket unsupported.
  assert (Hfail : forall R : R2FileReader,
             pre_method options = Some m -> m <> "" ->
             recognized_method m = false ->
             presign w R (Some options) = unsupported).
  { intros R Hm Hne Hu. apply presign_fails.
    rewrite (presign_method_given options m Hm Hne).
    apply presign_command_cases. exact Hu. }
  assert (Hblob : forall m',
             ps_method blob_opts = Some m' ->
             calls (BlobClient_presigned w client path (Some blob_opts))
             = [Signed (blob_client client)
                  (presigned_command client path m') blob_expiry]).
  { intros m' Hm. unfold BlobClient_presigned. rewrite Hm. reflexivity. }
  refine (conj _ (conj _ (conj _ (conj _ (conj _ (conj _ (conj _ (conj _
           (conj _ (conj _ (conj _ _))))))))))).
  - intros Hm Hne Hu. refine (conj _ (conj _ _)); apply Hfail; assumption.
  - intros Hm Hu. rewrite (Hblob m Hm).
    destruct (presigned_command_cases client path m) as (_ & _ & _ & _ & H).
    rewrite (H Hu). reflexivity.
  - intro H. apply presign_signs.
    assert (Hg : presign_method (Some options) = "GET").
    { destruct H as [H | H].
      - apply presign_method_given; [exact H | discriminate].
      - apply presign_method_default. exact H. }
    rewrite Hg. reflexivity.
  - apply (presign_signs self None). reflexivity.
  - intro H. apply presign_signs.
    rewrite (presign_method_given options "HEAD" H) by discriminate.
    reflexivity.
  - intro H. apply presign_signs.
    rewrite (presign_method_given options "PUT" H) by discriminate.
    reflexivity.
  - intro H. apply presign_signs.
    rewrite (presign_method_given options "DELETE" H) by discriminate.
    reflexivity.
  - intros [H | H].
    + rewrite (Hblob "GET" H). reflexivity.
    + unfold BlobClient_presigned. rewrite H. reflexivity.
  - reflexivity.
  - intro H. rewrite (Hblob "HEAD" H). reflexivity.
  - intro H. rewrite (Hblob "PUT" H). reflexivity.
  - intro H. rewrite (Hblob "DELETE" H). reflexivity.
Qed.

(** C7, as amended: without an [expiresIn] option [presign] signs for a
    fixed default expiry that differs by call path, 900 seconds on the
    per-object path and 3600 seconds on the client-level path; a supplied
    [expiresIn] other than 0 is used instead on both paths; a supplied 0 is
    used on the client-level path and replaced by 900 on the per-object
    path. *)
Theorem presign_default_expiry (self : R2FileReader) (client : BlobClient)
  (path : string) :
  signed_expiries (calls (presign w self None)) = [900]
  /\ (forall options,
        recognized_method (presign_method (Some options)) = true ->
        pre_expiresIn options = None ->
        signed_expiries (calls (presign w self (Some options))) = [900])
  /\ (forall options n,
        recognized_method (presign_method (Some options)) = true ->
        pre_expiresIn options = Some n -> n <> 0 ->
        signed_expiries (calls (presign w self (Some options))) = [n])
  /\ (forall options,
        recognized_method (presign_method (Some options)) = true ->
        pre_expiresIn options = Some 0 ->
        signed_expiries (calls (presign w self (Some options))) = [900])
  /\ signed_expiries (calls (BlobClient_presigned w client path None)) = [3600]
  /\ (forall blob_opts,
        ps_expiresIn blob_opts = None ->
        signed_expiries (calls (BlobClient_presigned w client path (Some blob_opts)))
        = [3600])
  /\ (forall blob_opts n,
        ps_expiresIn blob_opts = Some n ->
        signed_expiries (calls (BlobClient_presigned w client path (Some blob_opts)))
        = [n]).
Proof.
  refine (conj _ (conj _ (conj _ (conj _ (conj _ (conj _ _)))))).
  - apply (presign_expiry self None). reflexivity.
  - intros options Hm He. rewrite presign_expiry by exact Hm.
    rewrite He. reflexivity.
  - intros options n Hm He Hn. rewrite presign_expiry by exact Hm.
    rewrite He. unfold or_number, truthy_number.
    destruct (Z.eqb_spec n 0); [contradiction | reflexivity].
  - intros options Hm He. rewrite presign_expiry by exact Hm.
    rewrite He. reflexivity.
  - reflexivity.
  - intros blob_opts He. unfold BlobClient_presigned. rewrite He. reflexivity.
  - intros blob_opts n He. unfold BlobClient_presigned. rewrite He. reflexivity.
Qed.

End Presigning.

(** The claim C5 as stated fails: [BlobClient.presigned] with the method
    POST, which is not one of GET, HEAD, PUT, DELETE, does not fail; it
    returns the URL of a signed GET. *)
Lemma presigned_unrecognized_method_signs_get :
  recognized_method "POST" = false
  /\ BlobClient_presigned sample_world sample_blob_client "a.txt"
       (Some post_options)
     = ([Signed (blob_client sample_blob_client)
           (GetObjectCommand (mkGet "my-bucket" "a.txt" None)) 3600],
        Ok "https://r2.example/signed").
Proof.
  split; reflexivity.
Qed.

(** The witness of C5 as amended: POST fails on the per-object path and
    signs a GET on the client-level path; PUT with a content type and an
    access-control-list tag signs a write command that carries both. *)
Lemma presign_by_method_witness :
  presign sample_world (sample_file "a.txt")
    (Some (presign_with (Some "POST") None))
  = ([], Throw (new_Error "Unsupported method: POST"))
  /\ calls (BlobClient_presigned sample_world sample_blob_client "a.txt"
             (Some post_options))
     = [Signed (blob_client sample_blob_client)
          (GetObjectCommand (mkGet "my-bucket" "a.txt" None)) 3600]
  /\ calls (presign sample_world (sample_file "a.txt") (Some jpeg_put_options))
     = [Signed (client_ (sample_file "a.txt"))
          (PutObjectCommand
             (mkPut "my-bucket" "a.txt" None (Some "image/jpeg")
                (Some "public-read") None)) 3600].
Proof.
  pose proof (presign_by_method sample_world (sample_file "a.txt")
                (mkClient (Some sample_options)) sample_blob_client "a.txt"
                (presign_with (Some "POST") None) post_options "POST")
    as (Hfail & Hblob & _).
  pose proof (presign_by_method sample_world (sample_file "a.txt")
                (mkClient (Some sample_options)) sample_blob_client "a.txt"
                jpeg_put_options post_options "POST")
    as (_ & _ & _ & _ & _ & Hput & _).
  refine (conj _ (conj _ _)).
  - apply Hfail; [reflexivity | discriminate | reflexivity].
  - apply Hblob; reflexivity.
  - apply Hput. reflexivity.
Defined.

(** The claim C7 as stated fails: on the per-object path a supplied
    [expiresIn] of 0 is not used, the signature is asked for 900 seconds. *)
Lemma presign_zero_expiry_replaced :
  pre_expiresIn (presign_with None (Some 0)) = Some 0
  /\ signed_expiries
       (calls (presign sample_world (sample_file "a.txt")
                 (Some (presign_with None (Some 0)))))
     = [900].
Proof.
  split; reflexivity.
Qed.

(** The witness of C7 as amended: 7200 seconds are used when supplied, on
    both paths, and a supplied 0 only on the client-level path. *)
Lemma presign_default_expiry_witness :
  signed_expiries
    (calls (presign sample_world (sample_file "a.txt")
              (Some (presign_with None None)))) = [900]
  /\ signed_expiries
       (calls (presign sample_world (sample_file "a.txt")
                 (Some (presign_with (Some "PUT") (Some 7200))))) = [7200]
  /\ signed_expiries
       (calls (BlobClient_presigned sample_world sample_blob_client "a.txt"
                 (Some (mkPresign (Some 7200) None None)))) = [7200]
  /\ signed_expiries
       (calls (BlobClient_presigned sample_world sample_blob_client "a.txt"
                 (Some (mkPresign (Some 0) None None)))) = [0].
Proof.
  pose proof (presign_default_expiry sample_world (sample_file "a.txt")
                sample_blob_client "a.txt")
    as (_ & Hnone & Hsome & _ & _ & _ & Hblob).
  refine (conj _ (conj _ (conj _ _))).
  - apply Hnone; reflexivity.
  - apply Hsome; [reflexivity | reflexivity | discriminate].
  - apply Hblob. reflexivity.
  - apply Hblob. reflexivity.
Defined.

(** * Writing *)

Section Writing.

Variable w : World.

(** The chain [contentType || embedded || undefined] is the precedence of
    a non-empty override over a non-empty embedded type. *)
Lemma or_chain_precedence (override embedded : option string) :
  or_string (or_string override embedded) None
  = content_type_precedence override embedded.
Proof.
  unfold or_string, content_type_precedence.
  destruct override as [t |], embedded as [u |]; cbn;
    try destruct (truthy_string t) eqn:Ht; cbn; try rewrite Ht;
    try destruct (truthy_string u) eqn:Hu; cbn; try rewrite Hu;
    reflexivity.
Qed.

(** The body and the content type [write] prepares for a request-like,
    response-like or blob-like payload whose body could be read. *)
Lemma write_body_payload (data : WriteData) (b : Bytes)
  (contentType : option string) :
  payload_body data = Some (Ok b) ->
  write_body w data contentType
  = ret (b, content_type_precedence contentType (embedded_type data)).
Proof.
  destruct data as [s | x | x | body h | body h | body t |]; cbn;
    try discriminate; intro H; injection H as ->; cbn;
    rewrite or_chain_precedence; reflexivity.
Qed.

Lemma truthy_string_nonempty (s : string) :
  s <> "" -> truthy_string s = true.
Proof.
  intro H. unfold truthy_string.
  destruct (String.eqb_spec s ""); [contradiction | reflexivity].
Qed.

(** C6, as amended: for a write whose payload is request-like,
    response-like or blob-like, with the override being the per-call
    content type when defined and the one of the reference otherwise, the
    PUT carries the override when it is a non-empty string; otherwise (no
    override, or an empty one) the payload's own content type, its
    content-type header or its type tag, when that is non-empty; otherwise
    no content type.  In particular a response whose header says
    application/json, written with no override, is stored as
    application/json. *)
Theorem write_content_type_precedence (self : R2FileReader) (data : WriteData)
  (options : option R2Options) (b : Bytes) :
  payload_body data = Some (Ok b) ->
  let override :=
    nullish_opt (opt_read opt_type options) (get (opt_type (options_ self))) in
  let stored := content_type_precedence override (embedded_type data) in
  calls (write w self data options)
  = [Sent (client_ self)
       (PutObjectCommand
          {| put_Bucket := bucket_ self;
             put_Key := name self;
             put_Body := Some b;
             put_ContentType := stored;
             put_ACL := opt_read opt_acl options;
             put_StorageClass := opt_read opt_storageClass options |})]
  /\ stored_content_types (calls (write w self data options)) = [stored]
  /\ (forall t, override = Some t -> t <> "" -> stored = Some t)
  /\ (forall u,
        override = None \/ override = Some "" ->
        embedded_type data = Some u -> u <> "" -> stored = Some u)
  /\ (override = None \/ override = Some "" ->
      embedded_type data = None \/ embedded_type data = Some "" ->
      stored = None)
  /\ (override = None ->
      embedded_type data = Some "application/json" ->
      stored = Some "application/json").
Proof.
  intros Hb override stored.
  assert (Hcalls :
    calls (write w self data options)
    = [Sent (client_ self)
         (PutObjectCommand
            {| put_Bucket := bucket_ self;
               put_Key := name self;
               put_Body := Some b;
               put_ContentType := stored;
               put_ACL := opt_read opt_acl options;
               put_StorageClass := opt_read opt_storageClass options |})]).
  { unfold write. rewrite (write_body_payload data b _ Hb).
    unfold send_put, calls. cbn.
    destruct (s3_put w _ _); reflexivity. }
  refine (conj Hcalls (conj _ (conj _ (conj _ (conj _ _))))).
  - rewrite Hcalls. reflexivity.
  - intros t Ho Ht. unfold stored, content_type_precedence. rewrite Ho.
    rewrite (truthy_string_nonempty t Ht). reflexivity.
  - intros u Ho Hu Hne. unfold stored, content_type_precedence.
    destruct Ho as [Ho | Ho]; rewrite Ho, Hu; cbn;
      rewrite (truthy_string_nonempty u Hne); reflexivity.
  - intros Ho He. unfold stored, content_type_precedence.
    destruct Ho as [Ho | Ho], He as [He | He]; rewrite Ho, He; reflexivity.
  - intros Ho He. unfold stored. rewrite Ho, He. reflexivity.
Qed.

End Writing.

(** The claim C6 as stated fails: a response whose header says
    application/json, written to a reference whose content-type override
    is text/plain with the per-call override [""], is stored as
    application/json; neither override wins. *)
Lemma write_empty_override_loses :
  opt_read opt_type (Some empty_type_options) = Some ""
  /\ get (opt_type (options_ (sample_file "data.json"))) = Some "text/plain"
  /\ stored_content_types
       (calls (write sample_world (sample_file "data.json") json_response
                 (Some empty_type_options)))
     = [Some "application/json"].
Proof.
  refine (conj _ (conj _ _)); reflexivity.
Qed.

(** The witness of C6 as amended: the same response written with no
    override is stored as application/json, and as text/plain through a
    reference that carries this override. *)
Lemma write_content_type_precedence_witness :
  stored_content_types
    (calls (write sample_world (untyped_file "data.json") json_response None))
  = [Some "application/json"]
  /\ stored_content_types
       (calls (write sample_world (sample_file "data.json") json_response None))
     = [Some "text/plain"].
Proof.
  pose proof (write_content_type_precedence sample_world
                (untyped_file "data.json") json_response None hello_bytes
                eq_refl)
    as (_ & Hu & _).
  pose proof (write_content_type_precedence sample_world
                (sample_file "data.json") json_response None hello_bytes
                eq_refl)
    as (_ & Hs & _).
  split.
  - exact Hu.
  - exact Hs.
Defined.

(** * Further properties of slicing *)

Section SliceChains.

Variable env : option string.

(** X1: slicing by a begin alone composes by addition as long as the sums
    are exact: when [(range.begin ?? 0) + a] and [a + b] are safe integers
    (of magnitude at most 2^53), the range of [R.slice(a).slice(b)] is the
    range of [R.slice(a + b)], whatever the window of [R]. *)
Theorem slice_offsets_add (R : R2FileReader) (a b : Z)
  (ct1 ct2 ct3 : option string) :
  safe (nullish (range_read range_begin (range_ R)) 0 + a) ->
  safe (a + b) ->
  range_ (slice env (slice env R (ArgNumber a) ArgUndefined ct1)
            (ArgNumber b) ArgUndefined ct2)
  = range_ (slice env R (ArgNumber (js_add a b)) ArgUndefined ct3).
Proof.
  intros Ha Hab.
  rewrite (slice_number_range env (slice env R (ArgNumber a) ArgUndefined ct1)).
  rewrite !slice_number_range.
  cbn [range_read range_begin range_end get nullish].
  rewrite (js_add_safe a b Hab), (js_add_safe _ a Ha).
  assert (Hb : js_add (nullish (range_read range_begin (range_ R)) 0 + a) b
               = js_add (nullish (range_read range_begin (range_ R)) 0) (a + b)).
  { unfold js_add. f_equal. lia. }
  rewrite Hb.
  destruct (range_read range_end (range_ R)); reflexivity.
Qed.

(** One call of [slice] on a reference whose window has an end leaves an
    end that is defined and not later. *)
Lemma slice_end_not_later (R : R2FileReader) (a1 a2 : SliceArg)
  (ct : option string) (e0 : Z) :
  range_read range_end (range_ R) = Some e0 ->
  exists e1,
    range_read range_end (range_ (slice env R a1 a2 ct)) = Some e1 /\ e1 <= e0.
Proof.
  intro H.
  destruct a1 as [| b | s].
  - rewrite slice_no_begin_range by reflexivity. exists e0. split; [exact H | lia].
  - destruct a2 as [| e | s].
    + rewrite slice_number_range, H. exists e0. split; [reflexivity | lia].
    + rewrite slice_numbers_range, H. eexists. split; [reflexivity | lia].
    + rewrite slice_number_type_range, H. exists e0. split; [reflexivity | lia].
  - rewrite slice_no_begin_range by reflexivity. exists e0. split; [exact H | lia].
Qed.

(** X2: once the window of a reference has an end, no chain of [slice]
    calls, whatever their arguments, removes the end or moves it later. *)
Theorem slice_chain_end_not_later (R : R2FileReader) (chain : list SliceCall)
  (e0 : Z) :
  range_read range_end (range_ R) = Some e0 ->
  exists e1,
    range_read range_end (range_ (slice_all env R chain)) = Some e1
    /\ e1 <= e0.
Proof.
  revert R e0. induction chain as [| c chain IH]; intros R e0 H.
  - exists e0. split; [exact H | lia].
  - cbn.
    destruct (slice_end_not_later R (call_first c) (call_second c)
                (call_type c) e0 H) as (e1 & H1 & Hle).
    destruct (IH _ e1 H1) as (e2 & H2 & Hle2).
    exists e2. split; [exact H2 | lia].
Qed.

(** X3: slicing by a content type alone keeps the window, and of two such
    slices the later type wins: on a constructed reference
    [R.slice(t1).slice(t2)] is the reference [R.slice(t2)], with the range
    of [R] and the content type [t2]. *)
Theorem slice_types_last_wins (path : string) (options : option R2Options)
  (range : option Range) (t1 t2 : string) (a2 b2 : SliceArg)
  (ct1 ct2 : option string) :
  let R := new_R2FileReader env path options range in
  slice env (slice env R (ArgString t1) a2 ct1) (ArgString t2) b2 ct2
  = slice env R (ArgString t2) b2 ct2
  /\ range_ (slice env R (ArgString t2) b2 ct2) = range
  /\ get (opt_type (options_ (slice env R (ArgString t2) b2 ct2))) = Some t2.
Proof.
  cbv zeta. unfold slice; cbn. unfold new_R2FileReader; cbn.
  destruct options; repeat split.
Qed.

End SliceChains.

(** The witness of X1: in the window [10, 12), [slice(1).slice(2)] is
    [slice(3)]. *)
Lemma slice_offsets_add_witness :
  range_ (slice None (slice None windowed_file (ArgNumber 1) ArgUndefined None)
            (ArgNumber 2) ArgUndefined None)
  = range_ (slice None windowed_file (ArgNumber (js_add 1 2)) ArgUndefined None).
Proof.
  apply (slice_offsets_add None windowed_file 1 2 None None None);
    unfold safe; cbn; lia.
Defined.

(** The witness of X2: a window ending at 12 sliced by [slice(1, 100)] and
    then [slice(0)] still ends at 12 or earlier. *)
Lemma slice_chain_end_not_later_witness :
  exists e1,
    range_read range_end
      (range_ (slice_all None windowed_file
                 [mkSliceCall (ArgNumber 1) (ArgNumber 100) None;
                  mkSliceCall (ArgNumber 0) ArgUndefined None])) = Some e1
    /\ e1 <= 12.
Proof.
  apply (slice_chain_end_not_later None windowed_file _ 12). reflexivity.
Defined.

(** * Further properties of the reference operations *)

Section ReferenceOperations.

Variable w : World.

(** X4: the probe, the metadata call and the deletion look at bucket and
    key alone: on a slice of a constructed reference [exists], [stat],
    [delete] and [unlink] do what they do on the reference itself (deleting
    a slice deletes the whole object), and so does [presign] for every
    method but PUT, whose content type is read from the options of the
    slice. *)
Theorem metadata_operations_ignore_range (path : string)
  (options : option R2Options) (range : option Range) (a1 a2 : SliceArg)
  (ct : option string) :
  let R := new_R2FileReader (env_R2_ENDPOINT w) path options range in
  let S := slice (env_R2_ENDPOINT w) R a1 a2 ct in
  exists_ w S = exists_ w R
  /\ stat w S = stat w R
  /\ delete w S = delete w R
  /\ unlink w S = unlink w R
  /\ (forall o, presign_method o <> "PUT" -> presign w S o = presign w R o).
Proof.
  intros R S.
  assert (Hn : name S = name R) by apply slice_name.
  assert (Hb : bucket_ S = bucket_ R) by apply slice_bucket.
  assert (Hc : client_ S = client_ R) by apply slice_client.
  unfold unlink, exists_, stat, delete, presign, presign_command.
  rewrite Hn, Hb, Hc.
  refine (conj eq_refl (conj eq_refl (conj eq_refl (conj eq_refl _)))).
  intros o Hput.
  destruct (String.eqb (presign_method o) "GET"); [reflexivity |].
  destruct (String.eqb_spec (presign_method o) "PUT"); [contradiction |].
  reflexivity.
Qed.

(** X5: [exists] and [stat] agree on one reference: [exists] answers
    [true] exactly when [stat] succeeds, it answers [false] only when [stat]
    fails with a not-found error, and when it throws [stat] throws the same
    value; both send the same single HEAD. *)
Theorem exists_agrees_with_stat (self : R2FileReader) :
  (outcome (exists_ w self) = Ok true <-> exists s, outcome (stat w self) = Ok s)
  /\ (outcome (exists_ w self) = Ok false ->
      exists e, outcome (stat w self) = Throw e /\ is_not_found e = true)
  /\ (forall e, outcome (exists_ w self) = Throw e ->
      outcome (stat w self) = Throw e /\ is_not_found e = false)
  /\ sent_commands (calls (exists_ w self))
     = [HeadObjectCommand (mkHead (bucket_ self) (name self))]
  /\ sent_commands (calls (stat w self))
     = [HeadObjectCommand (mkHead (bucket_ self) (name self))].
Proof.
  unfold exists_, stat, send_head, outcome, calls. cbn.
  destruct (s3_head w (client_ self) (mkHead (bucket_ self) (name self)))
    as [r | e]; cbn.
  - refine (conj (conj _ _) (conj _ (conj _ (conj eq_refl eq_refl)))).
    + intros _. eexists. reflexivity.
    + reflexivity.
    + discriminate.
    + discriminate.
  - destruct (is_not_found e) eqn:Hnf; cbn;
      refine (conj (conj _ _) (conj _ (conj _ (conj eq_refl eq_refl)))).
    + discriminate.
    + intros [s Hs]. discriminate Hs.
    + intros _. exists e. split; [reflexivity | exact Hnf].
    + discriminate.
    + discriminate.
    + intros [s Hs]. discriminate Hs.
    + discriminate.
    + intros e' He. injection He as <-. split; [reflexivity | exact Hnf].
Qed.


(** The calls of a failed and of a successful send, seen as a list. *)
Lemma Forall_one {A} (P : A -> Prop) (a : A) : P a -> Forall P [a].
Proof.
  intro H. constructor; [exact H | constructor].
Qed.

(** X7: every operation of a reference sends at most one command, through
    the client of the reference and to its own bucket and key; none lists,
    and none signs. *)
Theorem operations_target_reference (self : R2FileReader) (data : WriteData)
  (options : option R2Options) :
  let own_ (t : list Call) :=
    Forall (targets_reference self) t
    /\ (List.length (sent_commands t) <= 1)%nat in
  own_ (calls (exists_ w self))
  /\ own_ (calls (stat w self))
  /\ own_ (calls (delete w self))
  /\ own_ (fst (stream w self))
  /\ own_ (calls (bytes w self))
  /\ own_ (calls (arrayBuffer w self))
  /\ own_ (calls (text w self))
  /\ own_ (calls (json w self))
  /\ own_ (calls (write w self data options)).
Proof.
  cbv zeta.
  assert (Hlog : forall e, targets_reference self (Logged e)) by (intro; exact I).
  unfold exists_, stat, delete, stream, bytes, arrayBuffer, json, text, write,
    send_head, send_delete, send_get, send_put, calls.
  cbn.
  refine (conj _ (conj _ (conj _ (conj _ (conj _ (conj _ (conj _
           (conj _ _)))))))).
  - destruct (s3_head w _ _) as [r | e]; cbn;
      [| destruct (is_not_found e); cbn];
      (split; [apply Forall_one; cbn; auto | cbn; lia]).
  - destruct (s3_head w _ _) as [r | e]; cbn.
    + split; [apply Forall_one; cbn; auto | cbn; lia].
    + split; [| cbn; lia].
      constructor; [cbn; auto | apply Forall_one; exact I].
  - destruct (s3_delete w _ _); cbn;
      (split; [apply Forall_one; cbn; auto | cbn; lia]).
  - split; [apply Forall_one; cbn; auto | cbn; lia].
  - destruct (s3_get w _ _) as [r | e]; cbn;
      [destruct (out_Body r) as [body |]; cbn;
       [destruct (transformToByteArray body); cbn |] |];
      (split; [apply Forall_one; cbn; auto | cbn; lia]).
  - destruct (s3_get w _ _) as [r | e]; cbn;
      [destruct (out_Body r) as [body |]; cbn;
       [destruct (transformToByteArray body); cbn |] |];
      (split; [apply Forall_one; cbn; auto | cbn; lia]).
  - destruct (s3_get w _ _) as [r | e]; cbn;
      [destruct (out_Body r) as [body |]; cbn |];
      (split; [apply Forall_one; cbn; auto | cbn; lia]).
  - destruct (s3_get w _ _) as [r | e]; cbn;
      [destruct (out_Body r) as [body |]; cbn;
       [destruct (transformToString w body); cbn |] |];
      (split; [apply Forall_one; cbn; auto | cbn; lia]).
  - destruct data as [s | b | b | [b | e] h | [b | e] h | [b | e] t |]; cbn;
      try (split; [constructor | cbn; lia]);
      destruct (s3_put w _ _); cbn;
      (split; [apply Forall_one; cbn; auto | cbn; lia]).
Qed.

End ReferenceOperations.

(** The witness of X4: a presigned GET of a slice of [greeting.txt] is the
    presigned GET of the reference. *)
Lemma metadata_operations_ignore_range_witness :
  presign sample_world
    (slice (env_R2_ENDPOINT sample_world)
       (new_R2FileReader (env_R2_ENDPOINT sample_world) "greeting.txt"
          (Some sample_options) None)
       (ArgNumber 0) (ArgNumber 2) None) None
  = presign sample_world
      (new_R2FileReader (env_R2_ENDPOINT sample_world) "greeting.txt"
         (Some sample_options) None) None.
Proof.
  apply (metadata_operations_ignore_range sample_world "greeting.txt"
           (Some sample_options) None (ArgNumber 0) (ArgNumber 2) None).
  discriminate.
Defined.


(** * Further properties of writing *)

Section WritingMore.

Variable w : World.

(** X8: [write] returns the number of bytes it sent: whenever it
    succeeds, it has sent one PUT to the key of the reference and its
    result is the length of the body of that PUT. *)
Theorem write_returns_bytes_sent (self : R2FileReader) (data : WriteData)
  (options : option R2Options) (n : Z) :
  outcome (write w self data options) = Ok n ->
  exists b contentType,
    calls (write w self data options)
    = [Sent (client_ self)
         (PutObjectCommand
            {| put_Bucket := bucket_ self;
               put_Key := name self;
               put_Body := Some b;
               put_ContentType := contentType;
               put_ACL := opt_read opt_acl options;
               put_StorageClass := opt_read opt_storageClass options |})]
    /\ n = Z.of_nat (List.length b).
Proof.
  unfold write, send_put, outcome, calls.
  destruct (write_body w data _) as [t [[b contentType] | e]] eqn:Hb; cbn;
    [| discriminate].
  assert (Ht : t = []).
  { destruct data as [s | x | x | [x | e] h | [x | e] h | [x | e] h |];
      cbn in Hb; injection Hb as <- _; reflexivity || discriminate. }
  subst t.
  destruct (s3_put w _ _) as [[] | e]; cbn; [| discriminate].
  intro H. injection H as <-. exists b, contentType. split; reflexivity.
Qed.

(** X9: a payload that [write] cannot turn into bytes never reaches the
    backend: an unsupported value (a reference itself, which the type of
    [data] admits) fails with "Unsupported data type", and a request, a
    response or a blob whose body cannot be read fails with the error of
    the read; nothing is sent in either case. *)
Theorem write_bad_payload_sends_nothing (self : R2FileReader)
  (options : option R2Options) (e : JsThrown) (header : option string)
  (type : string) :
  write w self DataOther options
  = ([], Throw (new_Error "Unsupported data type"))
  /\ write w self (DataRequest (Throw e) header) options = ([], Throw e)
  /\ write w self (DataResponse (Throw e) header) options = ([], Throw e)
  /\ write w self (DataBlob (Throw e) type) options = ([], Throw e).
Proof.
  repeat split.
Qed.

(** Spreading the same defaults twice is spreading them once. *)
Lemma spread_member_idempotent {A} (a b : member A) :
  spread_member a (spread_member a b) = spread_member a b.
Proof.
  destruct a, b; reflexivity.
Qed.

Lemma spread_idempotent (a b : R2Options) :
  spread a (spread a b) = spread a b.
Proof.
  unfold spread; cbn. rewrite !spread_member_idempotent. reflexivity.
Qed.

(** X10: the options of [Client.file] are the instance defaults with the
    per-call members over them, a per-call member holding [undefined]
    included: a per-call bucket is the bucket of the reference, a per-call
    bucket of [undefined] hides the default and leaves the empty bucket,
    and only without the member is the default used.  Merging the defaults
    in before the call, as [Client.write] and [Client.stat] do, changes
    nothing. *)
Theorem Client_file_merges_options (self : Client) (path : string)
  (options : option R2Options) :
  let file := Client_file w self path options in
  Client_file w self path
    (Some (spread (spread_opt (client_options self)) (spread_opt options)))
  = file
  /\ name file = path
  /\ range_ file = None
  /\ (forall b, opt_bucket (spread_opt options) = Present b -> bucket_ file = b)
  /\ (opt_bucket (spread_opt options) = Undefined -> bucket_ file = "")
  /\ (opt_bucket (spread_opt options) = Absent ->
      bucket_ file = nullish (opt_read opt_bucket (client_options self)) "")
  /\ (forall t, opt_type (spread_opt options) = Present t ->
      get (opt_type (options_ file)) = Some t)
  /\ (opt_type (spread_opt options) = Absent ->
      get (opt_type (options_ file))
      = opt_read opt_type (client_options self)).
Proof.
  cbv zeta.
  assert (Hsame :
    Client_file w self path
      (Some (spread (spread_opt (client_options self)) (spread_opt options)))
    = Client_file w self path options).
  { unfold Client_file. cbn [spread_opt].
    rewrite spread_idempotent. reflexivity. }
  unfold Client_file, new_R2FileReader in *; cbn.
  refine (conj Hsame (conj eq_refl (conj eq_refl (conj _ (conj _ (conj _
           (conj _ _))))))).
  - intros b H. rewrite H. reflexivity.
  - intro H. rewrite H. reflexivity.
  - intro H. rewrite H. destruct (client_options self); reflexivity.
  - intros t H. rewrite H. reflexivity.
  - intro H. rewrite H. destruct (client_options self); reflexivity.
Qed.

(** The PUT of [write] called without its own options carries no tag. *)
Lemma write_without_options_untagged (self : R2FileReader) (data : WriteData) :
  Forall (untagged_put (name self)) (sent_commands (calls (write w self data None))).
Proof.
  unfold write, send_put, calls.
  destruct data as [s | x | x | [x | e] h | [x | e] h | [x | e] h |]; cbn;
    try constructor;
    destruct (s3_put w _ _); cbn; repeat constructor.
Qed.

(** X11: [Client.write], of an instance or static, never sends the
    access-control-list tag or the storage class of its options: the
    options are given to the reference, whose [write] reads both tags from
    its own per-call options, and it is called without any.  The content
    type of the options is sent, since [write] falls back to the options
    of the reference for it. *)
Theorem Client_write_drops_tags (self : Client) (path : string)
  (data : WriteData) (options : option R2Options) (b : Bytes) :
  Forall (untagged_put path)
    (sent_commands (calls (Client_write w self path data options)))
  /\ Forall (untagged_put path)
       (sent_commands (calls (Client_static_write w path data options)))
  /\ sent_commands (calls (Client_static_write w path (DataArrayBuffer b) options))
     = [PutObjectCommand
          {| put_Bucket := nullish (opt_read opt_bucket options) "";
             put_Key := path;
             put_Body := Some b;
             put_ContentType := opt_read opt_type options;
             put_ACL := None;
             put_StorageClass := None |}].
Proof.
  refine (conj _ (conj _ _)).
  - apply (write_without_options_untagged
             (Client_file w self path
                (Some (spread (spread_opt (client_options self))
                         (spread_opt options)))) data).
  - apply (write_without_options_untagged
             (Client_static_file w path options) data).
  - unfold Client_static_write, Client_static_file, write, send_put, calls.
    cbn. destruct (s3_put w _ _); destruct options; reflexivity.
Qed.

(** X12: a slice that reads no content type from its arguments forgets
    the override for the writes that follow.  That is [slice()] and every
    call whose first argument is [undefined], [slice(begin)] and
    [slice(begin, undefined, type)], whose third argument is not read, and
    [slice(begin, end)]: a request-like, response-like or blob-like
    payload written through such a slice is stored under its own content
    type when that is non-empty, and under none otherwise, whatever
    override the reference had.  [slice(type)], [slice(begin, type)] and
    [slice(begin, end, type)] with a non-empty type store under that
    type. *)
Theorem write_after_slice (env : option string) (R : R2FileReader)
  (data : WriteData) (b : Bytes) (n m : Z) (t : string) (a2 : SliceArg)
  (ct : option string) :
  payload_body data = Some (Ok b) ->
  let stored (S : R2FileReader) :=
    stored_content_types (calls (write w S data None)) in
  let own_type := content_type_precedence None (embedded_type data) in
  stored (slice env R ArgUndefined a2 ct) = [own_type]
  /\ stored (slice env R (ArgNumber n) ArgUndefined ct) = [own_type]
  /\ stored (slice env R (ArgNumber n) (ArgNumber m) None) = [own_type]
  /\ (t <> "" ->
      stored (slice env R (ArgString t) a2 ct) = [Some t]
      /\ stored (slice env R (ArgNumber n) (ArgString t) ct) = [Some t]
      /\ stored (slice env R (ArgNumber n) (ArgNumber m) (Some t)) = [Some t]).
Proof.
  intros Hb stored own_type.
  assert (Hw : forall a1 a2' ct' type,
             snd (slice_parse a1 a2' ct') = type ->
             stored (slice env R a1 a2' ct')
             = [content_type_precedence type (embedded_type data)]).
  { intros a1 a2' ct' type Ht. unfold stored, slice.
    destruct (slice_parse a1 a2' ct') as [[bg en] ty]. cbn in Ht. subst ty.
    set (S := new_R2FileReader env (name R)
                (Some (with_type (options_ R) type)) _).
    assert (Ho : nullish_opt (opt_read opt_type None)
                   (get (opt_type (options_ S))) = type)
      by (destruct type; reflexivity).
    unfold write. rewrite Ho.
    rewrite (write_body_payload w data b type Hb).
    unfold send_put, calls. cbn.
    destruct (s3_put w _ _); reflexivity. }
  refine (conj _ (conj _ (conj _ _))).
  - apply Hw. reflexivity.
  - apply Hw. reflexivity.
  - apply Hw. reflexivity.
  - intro Hne.
    assert (Ht : content_type_precedence (Some t) (embedded_type data) = Some t).
    { unfold content_type_precedence.
      rewrite (truthy_string_nonempty t Hne). reflexivity. }
    refine (conj _ (conj _ _)).
    + rewrite (Hw (ArgString t) a2 ct (Some t) eq_refl), Ht. reflexivity.
    + rewrite (Hw (ArgNumber n) (ArgString t) ct (Some t) eq_refl), Ht.
      reflexivity.
    + rewrite (Hw (ArgNumber n) (ArgNumber m) (Some t) (Some t) eq_refl), Ht.
      reflexivity.
Qed.

End WritingMore.

(** The witness of X8: writing the five bytes of "hello" returns 5. *)
Lemma write_returns_bytes_sent_witness :
  exists b contentType,
    calls (write sample_world (sample_file "greeting.txt")
             (DataString "hello") None)
    = [Sent (client_ (sample_file "greeting.txt"))
         (PutObjectCommand
            (mkPut "my-bucket" "greeting.txt" (Some b) contentType None None))]
    /\ 5 = Z.of_nat (List.length b).
Proof.
  apply (write_returns_bytes_sent sample_world (sample_file "greeting.txt")
           (DataString "hello") None 5).
  reflexivity.
Defined.

(** The witness of X10: a per-call bucket of [undefined] hides the bucket
    of the instance. *)
Lemma Client_file_merges_options_witness :
  bucket_ (Client_file sample_world (mkClient (Some sample_options)) "a.txt"
             (Some undefined_bucket_options)) = "".
Proof.
  apply (Client_file_merges_options sample_world
           (mkClient (Some sample_options)) "a.txt"
           (Some undefined_bucket_options)).
  reflexivity.
Defined.

(** The witness of X12: the reference of the sample has the override
    text/plain; a JSON response written through [slice(0, 2)] of it is
    stored as application/json. *)
Lemma write_after_slice_witness :
  stored_content_types
    (calls (write sample_world
              (slice None (sample_file "data.json") (ArgNumber 0) (ArgNumber 2)
                 None)
              json_response None))
  = [Some "application/json"].
Proof.
  pose proof (write_after_slice sample_world None (sample_file "data.json")
                json_response hello_bytes 0 2 "text/css" ArgUndefined None
                eq_refl) as (_ & _ & H & _).
  exact H.
Defined.

(** * Further properties of listing *)

Section ListingMore.

Variable w : World.

(** X13: the cursor of a truncated page drives the next one: a non-empty
    [NextContinuationToken] of the service is returned unchanged as
    [nextContinuationToken], and the standalone [list] called with the
    input of the next page sends that token as continuation token, with
    the filters of the input unchanged. *)
Theorem list_cursor_round_trip (input : R2ListObjectsOptions)
  (options : option R2Options) (response : ListObjectsV2Output)
  (token : string) :
  out_NextContinuationToken response = Some token -> token <> "" ->
  r_nextContinuationToken (list_response w response) = Present token
  /\ sent_commands
       (calls (lib_list w (Some (next_page input (list_response w response)))
                 options))
     = [ListObjectsV2Command
          {| list_Bucket := opt_read opt_bucket options;
             list_Prefix := in_prefix input;
             list_ContinuationToken := Some token;
             list_Delimiter := in_delimiter input;
             list_MaxKeys := in_maxKeys input;
             list_FetchOwner := in_fetchOwner input;
             list_EncodingType := in_encodingType input;
             list_StartAfter := in_startAfter input |}].
Proof.
  intros Ht Hne.
  assert (Hr : r_nextContinuationToken (list_response w response)
               = Present token).
  { unfold list_response; cbn. rewrite Ht. cbn.
    rewrite (truthy_string_nonempty token Hne). reflexivity. }
  split; [exact Hr |].
  rewrite lib_list_passes_filters. unfold next_page.
  cbn [in_prefix in_continuationToken in_delimiter in_maxKeys in_startAfter
         in_encodingType in_fetchOwner].
  rewrite Hr. reflexivity.
Qed.

(** X14: the normalized listing keeps the entries of the service in their
    order, one for one, each under its key; and for every answer, with or
    without entries, a count of zero and a truncation flag of [false] are
    kept, while an empty name, prefix, delimiter or token is omitted as if
    the field were absent. *)
Theorem list_response_keeps_entries (response : ListObjectsV2Output) :
  let r := list_response w response in
  (forall cs,
      out_Contents response = Some cs ->
      exists l,
        r_contents r = Present l
        /\ List.length l = List.length cs
        /\ map c_key l = map (fun c => Present (nullish (raw_Key c) "")) cs
        /\ map c_size l = map (fun c => if_defined (raw_Size c)) cs)
  /\ (out_KeyCount response = Some 0 -> r_keyCount r = Present 0)
  /\ (out_MaxKeys response = Some 0 -> r_maxKeys r = Present 0)
  /\ (out_IsTruncated response = Some false -> r_isTruncated r = Present false)
  /\ (out_Name response = Some "" -> r_name r = Absent)
  /\ (out_Prefix response = Some "" -> r_prefix r = Absent)
  /\ (out_Delimiter response = Some "" -> r_delimiter r = Absent)
  /\ (out_NextContinuationToken response = Some "" ->
      r_nextContinuationToken r = Absent).
Proof.
  intro r. unfold r, list_response; cbn.
  refine (conj _ (conj _ (conj _ (conj _ (conj _ (conj _ (conj _ _))))))).
  - intros cs Hc. rewrite Hc. eexists. split; [reflexivity |].
    rewrite length_map, !map_map. repeat split.
  - intro H. rewrite H. reflexivity.
  - intro H. rewrite H. reflexivity.
  - intro H. rewrite H. reflexivity.
  - intro H. rewrite H. reflexivity.
  - intro H. rewrite H. reflexivity.
  - intro H. rewrite H. reflexivity.
  - intro H. rewrite H. reflexivity.
Qed.

(** X15: [BlobClient.list] sends one listing command with the bucket of
    the client and the prefix, delimiter, limit, cursor and start-after of
    its input; from the answer it returns one object per entry, in order,
    under the key of the entry, with size 0 for an absent size, the cursor
    of the next page, and for an answer that holds no entries, no common
    prefixes and no truncation flag the empty arrays and [false]; a failed
    command fails the listing with the error of the service. *)
Theorem BlobClient_list_contract (self : BlobClient) (input : R2ListOptions) :
  let command :=
    {| list_Bucket := Some (bo_bucket (blob_options self));
       list_Prefix := lo_prefix input;
       list_ContinuationToken := lo_cursor input;
       list_Delimiter := lo_delimiter input;
       list_MaxKeys := lo_limit input;
       list_FetchOwner := None;
       list_EncodingType := None;
       list_StartAfter := lo_startAfter input |} in
  calls (BlobClient_list w self (Some input))
  = [Sent (blob_client self) (ListObjectsV2Command command)]
  /\ (forall e,
        s3_list w (blob_client self) command = Throw e ->
        outcome (BlobClient_list w self (Some input)) = Throw e)
  /\ (forall response,
        s3_list w (blob_client self) command = Ok response ->
        exists r,
          outcome (BlobClient_list w self (Some input)) = Ok r
          /\ map obj_key (objects r)
             = map raw_Key (nullish (out_Contents response) [])
          /\ map obj_size (objects r)
             = map (fun c => or_number (raw_Size c) 0)
                 (nullish (out_Contents response) [])
          /\ cursor r = out_NextContinuationToken response
          /\ (out_Contents response = None -> objects r = [])
          /\ (out_CommonPrefixes response = None -> delimitedPrefixes r = [])
          /\ (out_IsTruncated response = None -> truncated r = false)).
Proof.
  cbv zeta. unfold BlobClient_list, send_list, calls, outcome. cbn.
  destruct (s3_list w (blob_client self) _) as [response | e]; cbn.
  - refine (conj eq_refl (conj _ _)); [discriminate |].
    intros r H. injection H as <-. eexists. split; [reflexivity |]. cbn.
    rewrite !map_map. cbn.
    refine (conj eq_refl (conj eq_refl (conj eq_refl (conj _ (conj _ _)))));
      intro H; rewrite H; reflexivity.
  - refine (conj eq_refl (conj _ _)); [| discriminate].
    intros e' H. injection H as <-. reflexivity.
Qed.

End ListingMore.

(** The witness of X13 on a truncated page whose cursor is [token-2]. *)
Lemma list_cursor_round_trip_witness :
  r_nextContinuationToken (list_response sample_world truncated_listing)
  = Present "token-2"
  /\ sent_commands
       (calls (lib_list sample_world
                 (Some (next_page uploads_input
                          (list_response sample_world truncated_listing)))
                 (Some sample_options)))
     = [ListObjectsV2Command
          (mkList (Some "my-bucket") (Some "uploads/") (Some "token-2") None
             (Some 500) (Some true) None None)].
Proof.
  apply (list_cursor_round_trip sample_world uploads_input
           (Some sample_options) truncated_listing "token-2").
  - reflexivity.
  - discriminate.
Defined.

(** The witness of X14: the key count 0 of a listing without entries is
    kept, and the empty prefix of the truncated page is omitted. *)
Lemma list_response_keeps_entries_witness :
  r_keyCount (list_response sample_world empty_listing) = Present 0
  /\ r_prefix (list_response sample_world truncated_listing) = Absent.
Proof.
  pose proof (list_response_keeps_entries sample_world empty_listing)
    as (_ & Hk & _).
  pose proof (list_response_keeps_entries sample_world truncated_listing)
    as (_ & _ & _ & _ & _ & Hp & _).
  split; [apply Hk | apply Hp]; reflexivity.
Defined.

(** The witness of X15: listing the sample bucket, which holds no entry
    outside [owned/], returns no objects and no prefixes. *)
Lemma BlobClient_list_contract_witness :
  exists r,
    outcome (BlobClient_list sample_world sample_blob_client
               (Some (mkR2ListOptions (Some "logs/") None (Some 10) None None)))
    = Ok r
    /\ objects r = [] /\ delimitedPrefixes r = [].
Proof.
  pose proof (BlobClient_list_contract sample_world sample_blob_client
                (mkR2ListOptions (Some "logs/") None (Some 10) None None))
    as (_ & _ & H).
  destruct (H empty_listing eq_refl) as (r & Hr & _ & _ & _ & Ho & Hp & _).
  exists r.
  refine (conj Hr (conj (Ho eq_refl) (Hp eq_refl))).
Defined.

(** * Further properties of BlobClient *)

Section BlobClientMore.

Variable w : World.

(** A safe integer is printed by its decimal digits. *)
Lemma number_to_string_safe (exponent_form : Z -> string) (n : Z) :
  safe n -> number_to_string exponent_form n = decimal n.
Proof.
  unfold safe, number_to_string. intro H.
  destruct (Z.ltb_spec (Z.abs n) (10 ^ 21)); [reflexivity |].
  assert (2 ^ 53 < 10 ^ 21) by reflexivity. lia.
Qed.

(** X16: the range header of [BlobClient.get], for offsets and lengths in
    the safe-integer range (of magnitude at most 2^53, where the sums are
    exact and the numbers print as decimal digits).  An offset with a
    non-zero length asks for the bytes from the offset to
    offset + length - 1; with a length of zero, or without a length, it
    asks for everything from the offset on; a length alone asks from byte 0
    to length - 1; a [suffix] member wins over offset and length; without
    a range option, or with an empty one, no header is sent. *)
Theorem get_range_header_cases (exponent_form : Z -> string) (o l s : Z)
  (offset length : member Z) :
  (l <> 0 -> safe o -> safe (o + l) -> safe (o + l - 1) ->
   get_rangeHeader exponent_form
     (Some (RangeObject Absent (Present o) (Present l)))
   = Some ("bytes=" ++ decimal o ++ "-" ++ decimal (o + l - 1)))
  /\ (safe o ->
      get_rangeHeader exponent_form
        (Some (RangeObject Absent (Present o) (Present 0)))
      = Some ("bytes=" ++ decimal o ++ "-"))
  /\ (safe o ->
      get_rangeHeader exponent_form
        (Some (RangeObject Absent (Present o) Absent))
      = Some ("bytes=" ++ decimal o ++ "-"))
  /\ (safe (l - 1) ->
      get_rangeHeader exponent_form
        (Some (RangeObject Absent Absent (Present l)))
      = Some ("bytes=0-" ++ decimal (l - 1)))
  /\ (safe s ->
      get_rangeHeader exponent_form
        (Some (RangeObject (Present s) offset length))
      = Some ("bytes=-" ++ decimal s))
  /\ get_rangeHeader exponent_form (Some (RangeObject Absent Absent Absent))
     = None
  /\ get_rangeHeader exponent_form None = None.
Proof.
  refine (conj _ (conj _ (conj _ (conj _ (conj _ (conj eq_refl eq_refl)))))).
  - intros Hl Ho Hol Hol1. unfold get_rangeHeader, truthy_number. cbn.
    destruct (Z.eqb_spec l 0); [contradiction |]. cbn.
    rewrite (js_add_safe o l Hol), (js_sub_safe (o + l) 1 Hol1).
    rewrite !number_to_string_safe by assumption. reflexivity.
  - intro Ho. unfold get_rangeHeader. cbn.
    rewrite number_to_string_safe by assumption. reflexivity.
  - intro Ho. unfold get_rangeHeader. cbn.
    rewrite number_to_string_safe by assumption. reflexivity.
  - intro Hl. unfold get_rangeHeader. cbn.
    rewrite (js_sub_safe l 1 Hl), number_to_string_safe by assumption.
    reflexivity.
  - intro Hs. unfold get_rangeHeader, template_number. cbn.
    rewrite number_to_string_safe by assumption. reflexivity.
Qed.

(** The reading loop appends what is pending and adds up the lengths. *)
Lemma read_chunks_spec (pending chunks : list Bytes) (totalLength : nat) :
  read_chunks pending chunks totalLength
  = ((chunks ++ pending)%list,
     (totalLength + List.length (List.concat pending))%nat).
Proof.
  revert chunks totalLength.
  induction pending as [| value rest IH]; intros chunks totalLength; cbn.
  - rewrite app_nil_r, Nat.add_0_r. reflexivity.
  - rewrite IH, <- app_assoc, length_app, Nat.add_assoc. reflexivity.
Qed.

(** The copying loop fills the room after [done] with the chunks, and no
    [set] is out of bounds, when the room is as long as the chunks. *)
Lemma copy_chunks_spec (chunks : list Bytes) :
  forall done room : Bytes,
    List.length room = List.length (List.concat chunks) ->
    copy_chunks chunks (done ++ room)%list (List.length done)
    = Some (done ++ List.concat chunks)%list.
Proof.
  induction chunks as [| chunk rest IH]; intros done room Hlen; cbn in *.
  - destruct room; [reflexivity | discriminate].
  - rewrite length_app in Hlen.
    unfold typed_array_set.
    assert (Hfit : (List.length done + List.length chunk
                    <=? List.length (done ++ room)%list)%nat = true).
    { apply Nat.leb_le. rewrite length_app. lia. }
    rewrite Hfit.
    rewrite firstn_app, firstn_all, Nat.sub_diag, firstn_O, app_nil_r.
    rewrite skipn_app, skipn_all2 by lia.
    replace (List.length done + List.length chunk - List.length done)%nat
      with (List.length chunk) by lia.
    cbn [app].
    replace (done ++ chunk ++ skipn (List.length chunk) room)%list
      with ((done ++ chunk) ++ skipn (List.length chunk) room)%list
      by (rewrite app_assoc; reflexivity).
    replace (List.length done + List.length chunk)%nat
      with (List.length (done ++ chunk)%list) by (rewrite length_app; lia).
    rewrite IH by (rewrite length_skipn; lia).
    rewrite <- app_assoc. reflexivity.
Qed.

(** X17: the [arrayBuffer] method of the object [BlobClient.get] returns
    collects the chunks of the body and copies them one after the other
    into a buffer of their total length: no copy is out of bounds, and the
    result is the concatenation of the chunks, which is what
    [transformToByteArray] gives the read operations of a reference; when
    the transport fails both fail with its error. *)
Theorem body_arrayBuffer_concatenates (body : StreamingBody) :
  body_arrayBuffer body = transformToByteArray body
  /\ (body_failure body = None ->
      body_arrayBuffer body = Ok (List.concat (body_chunks body)))
  /\ (forall e, body_failure body = Some e -> body_arrayBuffer body = Throw e).
Proof.
  assert (H : body_arrayBuffer body = transformToByteArray body).
  { unfold body_arrayBuffer, transformToByteArray.
    destruct (body_failure body) as [e |]; [reflexivity |].
    rewrite read_chunks_spec. cbn [app].
    pose proof (copy_chunks_spec (body_chunks body) []
                  (repeat Byte.x00
                     (0 + List.length (List.concat (body_chunks body))))) as Hc.
    cbn [app List.length] in Hc. rewrite Hc; [reflexivity |].
    rewrite repeat_length. reflexivity. }
  refine (conj H (conj _ _)).
  - intro Hf. rewrite H. unfold transformToByteArray. rewrite Hf. reflexivity.
  - intros e Hf. rewrite H. unfold transformToByteArray. rewrite Hf.
    reflexivity.
Qed.

(** X18: the two size operations agree: for a [BlobClient] built over the
    client configuration and the bucket that the options of the static
    [Client.size] resolve to, [BlobClient.size] and [Client.size] send the
    same HEAD and end alike: the content length of the answer, 0 when the
    answer has none, and the error of the service, a not-found error
    included, when the command fails. *)
Theorem sizes_agree (client : BlobClient) (path : string)
  (options : option R2Options) :
  blob_client client = createClient (env_R2_ENDPOINT w) options ->
  bo_bucket (blob_options client) = nullish (opt_read opt_bucket options) "" ->
  outcome (BlobClient_size w client path)
  = outcome (Client_static_size w path options)
  /\ sent_commands (calls (BlobClient_size w client path))
     = sent_commands (calls (Client_static_size w path options))
  /\ (forall r,
        s3_head w (blob_client client)
          (mkHead (bo_bucket (blob_options client)) path) = Ok r ->
        outcome (BlobClient_size w client path)
        = Ok (nullish (out_ContentLength r) 0))
  /\ (forall e,
        s3_head w (blob_client client)
          (mkHead (bo_bucket (blob_options client)) path) = Throw e ->
        outcome (BlobClient_size w client path) = Throw e).
Proof.
  intros Hc Hb.
  unfold BlobClient_size, Client_static_size, Client_static_file, stat,
    new_R2FileReader, send_head, outcome, calls.
  cbn. rewrite Hc, Hb.
  destruct (s3_head w _ _) as [r | e]; cbn.
  - refine (conj eq_refl (conj eq_refl (conj _ _))); [| discriminate].
    intros r' H. injection H as <-. reflexivity.
  - refine (conj eq_refl (conj eq_refl (conj _ _))); [discriminate |].
    intros e' H. injection H as <-. reflexivity.
Qed.

End BlobClientMore.

(** The witness of X16: 100 bytes from offset 50 are the bytes 50 to
    149. *)
Lemma get_range_header_cases_witness :
  get_rangeHeader decimal (Some (RangeObject Absent (Present 50) (Present 100)))
  = Some "bytes=50-149".
Proof.
  apply (proj1 (get_range_header_cases decimal 50 100 0 Absent Absent));
    [discriminate | | |]; unfold safe; cbn; lia.
Defined.

(** The witness of X17 over a body read in two chunks. *)
Lemma body_arrayBuffer_concatenates_witness :
  body_arrayBuffer two_chunk_body = Ok hello_bytes.
Proof.
  apply (body_arrayBuffer_concatenates two_chunk_body). reflexivity.
Defined.

(** The witness of X18: both sizes of [greeting.txt] in the sample world
    are 5. *)
Lemma sizes_agree_witness :
  outcome (BlobClient_size sample_world sample_blob_client "greeting.txt")
  = outcome (Client_static_size sample_world "greeting.txt"
               (Some sample_options)).
Proof.
  apply (sizes_agree sample_world sample_blob_client "greeting.txt"
           (Some sample_options)); reflexivity.
Defined.

(** * Further properties of the facade *)

Section FacadeMore.

Variable w : World.

(** X19: [Client.presign] of an instance builds its reference from the
    instance defaults alone: the bucket, the endpoint and the credentials
    of the per-call options are never read, so two calls whose options
    agree on method, expiry, content type and access-control-list tag sign
    the same command through the same client, for the bucket of the
    instance. *)
Theorem Client_presign_ignores_call_target (self : Client) (path : string)
  (o1 o2 : R2FilePresignOptions) :
  pre_method o1 = pre_method o2 ->
  pre_expiresIn o1 = pre_expiresIn o2 ->
  opt_type (pre_options o1) = opt_type (pre_options o2) ->
  opt_acl (pre_options o1) = opt_acl (pre_options o2) ->
  Client_presign w self path (Some o1) = Client_presign w self path (Some o2)
  /\ Forall (fun c => match c with
                      | Signed cl _ _ =>
                          cl = createClient (env_R2_ENDPOINT w)
                                 (Some (spread_opt (client_options self)))
                      | _ => False
                      end)
       (calls (Client_presign w self path (Some o1))).
Proof.
  intros Hm He Ht Ha.
  assert (Hopt : spread (spread_opt (client_options self)) empty_options
                 = spread_opt (client_options self)).
  { destruct (spread_opt (client_options self)); reflexivity. }
  unfold Client_presign, Client_file. cbn [spread_opt]. rewrite Hopt.
  unfold presign, presign_method, presign_command, sign, calls.
  cbn. rewrite Hm, He, Ht, Ha.
  split; [reflexivity |].
  by_method (or_default (pre_method o2) "GET")
    ltac:(cbn; apply Forall_one; reflexivity).
  constructor.
Qed.

End FacadeMore.

(** The witness of X5 in the sample world: [missing.txt] does not exist and
    its [stat] fails with a not-found error. *)
Lemma exists_agrees_with_stat_witness :
  exists e,
    outcome (stat sample_world (sample_file "missing.txt")) = Throw e
    /\ is_not_found e = true.
Proof.
  apply (exists_agrees_with_stat sample_world (sample_file "missing.txt")).
  reflexivity.
Defined.

(** The witness of X19: a per-call bucket does not change what the
    instance signs. *)
Lemma Client_presign_ignores_call_target_witness :
  Client_presign sample_world (mkClient (Some sample_options)) "a.txt"
    (Some (mkPresignOptions undefined_bucket_options None None))
  = Client_presign sample_world (mkClient (Some sample_options)) "a.txt"
      (Some (mkPresignOptions empty_options None None)).
Proof.
  apply (Client_presign_ignores_call_target sample_world
           (mkClient (Some sample_options)) "a.txt"
           (mkPresignOptions undefined_bucket_options None None)
           (mkPresignOptions empty_options None None));
    reflexivity.
Defined.
